(** * PollHub backend: the voting and result-consistency engine

    A shallow embedding of [src/models/Poll.js] (poll aggregate,
    eligibility, lifecycle hook, results), of the vote ledger and user
    history documents, and of the two handlers of [src/routes/votes.js]
    that cast and retract votes.

    Conventions.
    - MongoDB ObjectIds are compared in the source through [toString()];
      they are modelled as strings.
    - A JavaScript [Date] is compared through its millisecond value; it is
      modelled as an integer.  Every [new Date()] / [Date.now] of the source
      is an explicit time argument of the function that reads the clock.
    - Counters ([votes], [totalVotes], [uniqueVoters]) are JavaScript
      numbers holding integers; they are modelled as [Z], and the
      [Math.max(0, _)] floors of the source are written out.  The one place
      where the source leaves the integers ([getResults]) is modelled with
      binary64 floats.
    - A collection is a finite map from [_id] to document: the [_id] of a
      document is the key it is stored under, and a loaded document is
      handled together with that key.  [save] writes the in-memory
      document back under its [_id] after running the schema's pre-save
      hook.  Stored documents are taken to pass their schema's
      validation, so that [save] goes through; storage failures are not
      modelled.
    - The notifier calls ([emitNewVote], [emitPollUpdate]) are
      fire-and-forget and touch none of the three collections; they are
      left out. *)

From Stdlib Require Import ZArith Floats Uint63 DecimalString.
From stdpp Require Import base gmap list strings.

Open Scope string_scope.
Open Scope list_scope.
Open Scope Z_scope.

(** ** Documents *)

Abbreviation ObjectId := string.
Definition Date := Z.

(** [status] enum of [pollSchema]. *)
Inductive Status := draft | active | inactive | completed | cancelled.

#[global] Instance Status_eq_dec : EqDecision Status.
Proof. solve_decision. Defined.

(** An element of [optionSchema.voters]. *)
Record Voter := mkVoter {
  userId : ObjectId;
  votedAt : Date
}.

(** [optionSchema]. *)
Record PollOption := mkOption {
  text : string;
  votes : Z;
  voters : list Voter
}.

(** [pollSchema.settings], restricted to the fields the engine reads. *)
Record Settings := mkSettings {
  anonymousVoting : bool;
  maxVotesPerUser : Z
}.

(** [pollSchema], restricted to the fields the engine reads or writes. *)
Record Poll := mkPoll {
  title : string;
  options : list PollOption;
  startDate : Date;
  endDate : Date;
  status : Status;
  totalVotes : Z;
  uniqueVoters : Z;
  votedUsers : list ObjectId;
  settings : Settings
}.

(** [voteSchema] (the ledger entry); [createdAt] comes from
    [timestamps: true]. *)
Record Vote := mkVote {
  vote_pollId : ObjectId;
  vote_userId : ObjectId;
  optionIndex : Z;
  optionText : string;
  isAnonymous : bool;
  createdAt : Date
}.

(** An element of [userSchema.votedPolls]. *)
Record VotedPoll := mkVotedPoll {
  vp_pollId : ObjectId;
  vp_votedAt : Date
}.

Inductive Role := voter | admin.

#[global] Instance Role_eq_dec : EqDecision Role.
Proof. solve_decision. Defined.

(** [userSchema], restricted to identity, role and history. *)
Record User := mkUser {
  name : string;
  role : Role;
  votedPolls : list VotedPoll
}.

(** Field updates ([this.f = v] on a document). *)
Definition set_status (s : Status) (p : Poll) : Poll :=
  mkPoll (title p) (options p) (startDate p) (endDate p) s
         (totalVotes p) (uniqueVoters p) (votedUsers p) (settings p).

Definition set_options (os : list PollOption) (p : Poll) : Poll :=
  mkPoll (title p) os (startDate p) (endDate p) (status p)
         (totalVotes p) (uniqueVoters p) (votedUsers p) (settings p).

Definition set_totalVotes (n : Z) (p : Poll) : Poll :=
  mkPoll (title p) (options p) (startDate p) (endDate p) (status p)
         n (uniqueVoters p) (votedUsers p) (settings p).

Definition set_uniqueVoters (n : Z) (p : Poll) : Poll :=
  mkPoll (title p) (options p) (startDate p) (endDate p) (status p)
         (totalVotes p) n (votedUsers p) (settings p).

Definition set_votedUsers (us : list ObjectId) (p : Poll) : Poll :=
  mkPoll (title p) (options p) (startDate p) (endDate p) (status p)
         (totalVotes p) (uniqueVoters p) us (settings p).

Definition set_votedPolls (h : list VotedPoll) (u : User) : User :=
  mkUser (name u) (role u) h.

(** ** Poll.js: virtuals and the pre-save hook *)

(** [pollSchema.virtual('isActive')]. *)
Definition isActive (p : Poll) (now : Date) : bool :=
  bool_decide (status p = active) && (startDate p <=? now) && (endDate p >? now).

(** [pollSchema.virtual('hasEnded')]. *)
Definition hasEnded (p : Poll) (now : Date) : bool := now >? endDate p.

(** [pollSchema.pre('save', ...)]. *)
Definition preSave (now : Date) (p : Poll) : Poll :=
  if bool_decide (status p = active) then
    if now <? startDate p then set_status draft p
    else if now >? endDate p then set_status completed p
    else p
  else p.

(** ** Poll.js: eligibility *)

(** The object returned by [canUserVote]: [{ canVote, reason }]. *)
Record CanVote := mkCanVote {
  canVote : bool;
  reason : option string
}.

(** Template-literal rendering of an integer-valued number. *)
Definition string_of_Z (z : Z) : string := NilZero.string_of_int (Z.to_int z).

(** [this.settings.maxVotesPerUser || 1]: zero is falsy. *)
Definition maxVotesAllowed (p : Poll) : Z :=
  if maxVotesPerUser (settings p) =? 0 then 1 else maxVotesPerUser (settings p).

(** The [reduce] over the options: how many voter records carry [uid]. *)
Definition userVoteCount (p : Poll) (uid : ObjectId) : Z :=
  fold_left
    (fun count opt =>
       count + Z.of_nat (length (filter (fun v => userId v = uid) (voters opt))))
    (options p) 0.

(** [pollSchema.methods.canUserVote]. *)
Definition canUserVote (p : Poll) (uid : ObjectId) (now : Date) : CanVote :=
  if negb (isActive p now) then mkCanVote false (Some "Poll is not active")
  else if userVoteCount p uid >=? maxVotesAllowed p then
    mkCanVote false
      (Some ("Maximum votes per user reached (" +:+ string_of_Z (maxVotesAllowed p) +:+ ")"))
  else mkCanVote true None.

(** ** Poll.js: addVote *)

(** A JavaScript computation that may [throw new Error(msg)]. *)
Inductive Thrown (A : Type) :=
  | Returned (a : A)
  | Threw (msg : string).
Arguments Returned {A} a.
Arguments Threw {A} msg.

(** [o.votes += 1; o.voters.push({ userId })], the pushed record taking
    the [votedAt] default. *)
Definition castOn (uid : ObjectId) (stamp : Date) (o : PollOption) : PollOption :=
  mkOption (text o) (votes o + 1) (voters o ++ [mkVoter uid stamp]).

(** [pollSchema.methods.addVote], up to (not including) the final
    [this.save()]: the checks and the mutation of the in-memory document.
    [now] is the clock read by [canUserVote], [stamp] the one read by the
    [votedAt] default. *)
Definition addVote (p : Poll) (uid : ObjectId) (idx : Z) (now stamp : Date)
  : Thrown Poll :=
  let canVoteResult := canUserVote p uid now in
  if negb (canVote canVoteResult) then Threw (default "" (reason canVoteResult))
  else if (idx <? 0) || (idx >=? Z.of_nat (length (options p)))
  then Threw "Invalid option index"
  else
    let p1 := set_options (alter (castOn uid stamp) (Z.to_nat idx) (options p)) p in
    let p2 := set_totalVotes (totalVotes p1 + 1) p1 in
    if bool_decide (uid ∈ votedUsers p2) then Returned p2
    else Returned (set_uniqueVoters (uniqueVoters p2 + 1)
                     (set_votedUsers (votedUsers p2 ++ [uid]) p2)).

(** ** User model: history *)

(** [userSchema.methods.hasVotedForPoll]. *)
Definition hasVotedForPoll (u : User) (pid : ObjectId) : bool :=
  existsb (fun v => bool_decide (vp_pollId v = pid)) (votedPolls u).

(** [userSchema.methods.addVotedPoll]: the new document, and whether it
    was saved. *)
Definition addVotedPoll (u : User) (pid : ObjectId) (stamp : Date) : User * bool :=
  if negb (hasVotedForPoll u pid)
  then (set_votedPolls (votedPolls u ++ [mkVotedPoll pid stamp]) u, true)
  else (u, false).

(** ** The database and the HTTP responses *)

Record World := mkWorld {
  polls : gmap ObjectId Poll;
  ledger : gmap ObjectId Vote;
  users : gmap ObjectId User
}.

Definition set_polls (m : gmap ObjectId Poll) (w : World) : World :=
  mkWorld m (ledger w) (users w).
Definition set_ledger (m : gmap ObjectId Vote) (w : World) : World :=
  mkWorld (polls w) m (users w).
Definition set_users (m : gmap ObjectId User) (w : World) : World :=
  mkWorld (polls w) (ledger w) m.

(** The [vote] object of the 201 response. *)
Record Receipt := mkReceipt {
  r_pollId : ObjectId;
  r_optionIndex : Z;
  r_optionText : string;
  r_votedAt : Date
}.

(** [res.status(code).json({ message, vote })]. *)
Record Response := mkResponse {
  code : Z;
  message : string;
  vote : option Receipt
}.

Definition respond (c : Z) (msg : string) : Response := mkResponse c msg None.

(** [arr[i]] for a number [i]: [undefined] outside the array. *)
Definition js_index {A} (l : list A) (i : Z) : option A :=
  if i <? 0 then None else l !! Z.to_nat i.

(** [a || b] on strings: the empty string is falsy. *)
Definition or_else (a b : string) : string :=
  if bool_decide (a = "") then b else a.

(** ** votes.js: POST /api/votes/:pollId *)

(** One request, with what the environment supplies while it runs: the
    authenticated user document, the successive clock readings, and the
    [_id] the driver gives to the new ledger entry. *)
Record CastReq := mkCastReq {
  req_pollId : ObjectId;          (* req.params.pollId *)
  req_optionIndex : Z;            (* req.body.optionIndex *)
  req_userId : ObjectId;          (* req.user._id *)
  req_user : User;                (* req.user *)
  t_check : Date;                 (* clock in the handler's canUserVote *)
  t_add : Date;                   (* clock in addVote's canUserVote *)
  t_stamp : Date;                 (* votedAt default of the voter record *)
  t_save : Date;                  (* clock in the pre-save hook *)
  new_voteId : ObjectId;          (* _id of the new Vote *)
  t_vote : Date;                  (* createdAt of the new Vote *)
  t_history : Date                (* votedAt default of the history entry *)
}.

(** From [Poll.findById] to the call of [this.save()] in [addVote]: one
    database read, then synchronous code on the loaded document. *)
Definition cast_begin (req : CastReq) (w : World) : Response + Poll :=
  match polls w !! req_pollId req with
  | None => inl (respond 404 "Poll not found")
  | Some poll =>
    let canVoteResult := canUserVote poll (req_userId req) (t_check req) in
    if negb (canVote canVoteResult)
    then inl (respond 400 (default "" (reason canVoteResult)))
    else if (req_optionIndex req <? 0)
            || (req_optionIndex req >=? Z.of_nat (length (options poll)))
    then inl (respond 400 "Invalid option selected")
    else
      match addVote poll (req_userId req) (req_optionIndex req)
                    (t_add req) (t_stamp req) with
      | Threw msg => inl (respond 500 (or_else msg "Server error casting vote"))
      | Returned poll' => inr poll'
      end
  end.

(** [this.save()] of [addVote]: the hook runs on the in-memory document,
    which is then written under its [_id]. *)
Definition cast_savePoll (req : CastReq) (poll : Poll) (w : World) : Poll * World :=
  let poll' := preSave (t_save req) poll in
  (poll', set_polls (<[req_pollId req := poll']> (polls w)) w).

(** [new Vote({...})] and [await vote.save()]. *)
Definition cast_saveVote (req : CastReq) (poll : Poll) (w : World)
  : (Response + Vote) * World :=
  match js_index (options poll) (req_optionIndex req) with
  | None =>
    (inl (respond 500 "Cannot read properties of undefined (reading 'text')"), w)
  | Some o =>
    let v := mkVote (req_pollId req) (req_userId req) (req_optionIndex req)
                    (text o) (anonymousVoting (settings poll)) (t_vote req) in
    (inr v, set_ledger (<[new_voteId req := v]> (ledger w)) w)
  end.

(** [await req.user.addVotedPoll(pollId)] and the 201 response. *)
Definition cast_history (req : CastReq) (poll : Poll) (v : Vote) (w : World)
  : Response * World :=
  let '(u', saved) := addVotedPoll (req_user req) (req_pollId req) (t_history req) in
  let w' := if saved then set_users (<[req_userId req := u']> (users w)) w else w in
  match js_index (options poll) (req_optionIndex req) with
  | None =>
    (respond 500 "Cannot read properties of undefined (reading 'text')", w')
  | Some o =>
    (mkResponse 201 "Vote cast successfully"
       (Some (mkReceipt (req_pollId req) (req_optionIndex req) (text o) (createdAt v))),
     w')
  end.

(** The whole handler, run without interruption. *)
Definition castVote (req : CastReq) (w : World) : Response * World :=
  match cast_begin req w with
  | inl r => (r, w)
  | inr poll =>
    let '(poll', w1) := cast_savePoll req poll w in
    match cast_saveVote req poll' w1 with
    | (inl r, w2) => (r, w2)
    | (inr v, w2) => cast_history req poll' v w2
    end
  end.

(** ** votes.js: DELETE /api/votes/:voteId *)

Record DeleteReq := mkDeleteReq {
  del_voteId : ObjectId;          (* req.params.voteId *)
  del_role : Role;                (* req.user.role *)
  del_t_save : Date               (* clock in the pre-save hook *)
}.

(** [Vote.countDocuments({ pollId, userId, _id: { $ne: vid } })]. *)
Definition countOtherVotes (l : gmap ObjectId Vote) (pid uid vid : ObjectId) : nat :=
  size (filter (fun kv : ObjectId * Vote =>
                  vote_pollId kv.2 = pid ∧ vote_userId kv.2 = uid ∧ kv.1 ≠ vid) l).

(** The update of the voted option: the counter is floored at zero and
    every voter record of the user is filtered out. *)
Definition retractOn (uid : ObjectId) (o : PollOption) : PollOption :=
  mkOption (text o) (Z.max 0 (votes o - 1))
           (filter (fun v => userId v ≠ uid) (voters o)).

(** The in-memory update of the poll document, before [poll.save()]. *)
Definition retractFrom (poll : Poll) (v : Vote) (userOtherVotes : nat) : Poll :=
  let p1 :=
    match js_index (options poll) (optionIndex v) with
    | Some _ =>
      set_options
        (alter (retractOn (vote_userId v)) (Z.to_nat (optionIndex v)) (options poll))
        poll
    | None => poll
    end in
  let p2 := set_totalVotes (Z.max 0 (totalVotes p1 - 1)) p1 in
  if bool_decide (userOtherVotes = 0%nat) then
    set_uniqueVoters (Z.max 0 (uniqueVoters p2 - 1))
      (set_votedUsers (filter (fun u => u ≠ vote_userId v) (votedUsers p2)) p2)
  else p2.

(** The handler.  The module [routes/votes.js] binds [express], [Vote],
    [Poll], the middleware, the notifier and [mongoose], but never the
    name [User]: when the second count is zero, evaluating
    [User.findByIdAndUpdate] throws a ReferenceError, the [catch] answers
    500, and [Vote.findByIdAndDelete] is not reached; the poll has been
    saved by then. *)
Definition deleteVote (req : DeleteReq) (w : World) : Response * World :=
  if negb (bool_decide (del_role req = admin))
  then (respond 403 "Admin access required", w)
  else
    match ledger w !! del_voteId req with
    | None => (respond 404 "Vote not found", w)
    | Some v =>
      let w1 :=
        match polls w !! vote_pollId v with
        | Some poll =>
          let userOtherVotes :=
            countOtherVotes (ledger w) (vote_pollId v) (vote_userId v) (del_voteId req) in
          let poll' := preSave (del_t_save req) (retractFrom poll v userOtherVotes) in
          set_polls (<[vote_pollId v := poll']> (polls w)) w
        | None => w
        end in
      let userOtherVotes :=
        countOtherVotes (ledger w1) (vote_pollId v) (vote_userId v) (del_voteId req) in
      if bool_decide (userOtherVotes = 0%nat)
      then (respond 500 "Server error deleting vote", w1)
      else (respond 200 "Vote deleted successfully",
            set_ledger (delete (del_voteId req) (ledger w1)) w1)
    end.

(** ** Poll.js: getResults *)

(** A counter as the JavaScript number it is (round to nearest). *)
Definition number_of_Z (z : Z) : float := SF2Prim (binary_normalize prec emax z 0 false).

(** Two-digit rendering of [n] hundredths: integer part, point, two
    fraction digits. *)
Definition hundredths (n : Z) : string :=
  string_of_Z (n / 100) +:+ "." +:+ string_of_Z (n mod 100 / 10)
              +:+ string_of_Z (n mod 10).

(** [Number.prototype.toFixed(2)] following ECMA-262: for a finite [x]
    below 10^21 in magnitude, the integer [n] with [n / 100] nearest to
    [|x|], the larger one on a tie, printed with two fraction digits and
    the sign of [x].  Elsewhere [toFixed] defers to [ToString(x)], which
    is not expanded here ([None]). *)
Definition toFixed2 (x : float) : option string :=
  match Prim2SF x with
  | S754_zero _ => Some "0.00"
  | S754_finite s m e =>
    let num := Z.pos m * 2 ^ Z.max 0 e in    (* |x| = num / den *)
    let den := 2 ^ Z.max 0 (- e) in
    if num >=? 10 ^ 21 * den then None
    else
      let n := (200 * num + den) / (2 * den) in
      Some ((if s then "-" else "") +:+ hundredths n)
  | _ => None
  end.

(** The [percentage] field: a string out of [toFixed], or the number 0. *)
Inductive Percentage :=
  | PctString (s : string)
  | PctNumber (n : Z)
  | PctToString (x : float).

(** [totalVotes > 0 ? ((votes / totalVotes) * 100).toFixed(2) : 0]. *)
Definition percentageOf (v total : Z) : Percentage :=
  if total >? 0 then
    let x := PrimFloat.mul (PrimFloat.div (number_of_Z v) (number_of_Z total))
                           (number_of_Z 100) in
    match toFixed2 x with
    | Some s => PctString s
    | None => PctToString x
    end
  else PctNumber 0.

Record OptionResult := mkOptionResult {
  res_text : string;
  res_votes : Z;
  percentage : Percentage
}.

Record Results := mkResults {
  res_pollId : ObjectId;
  res_title : string;
  res_totalVotes : Z;
  res_uniqueVoters : Z;
  results : list OptionResult;
  res_status : Status;
  res_endDate : Date;
  res_hasEnded : bool
}.

(** [pollSchema.methods.getResults]; [pid] is [this._id]. *)
Definition getResults (pid : ObjectId) (p : Poll) (now : Date) : Results :=
  let results :=
    map (fun o => mkOptionResult (text o) (votes o)
                    (percentageOf (votes o) (totalVotes p)))
        (options p) in
  mkResults pid (title p) (totalVotes p) (uniqueVoters p) results
            (status p) (endDate p) (hasEnded p now).

(** ** Invariants of the aggregate *)

(** Sum of the options' counters. *)
Definition sumVotes (os : list PollOption) : Z :=
  foldr (fun o acc => votes o + acc) 0 os.

(** [votes == |voter records|]. *)
Definition optionInv (o : PollOption) : Prop :=
  votes o = Z.of_nat (length (voters o)).

(** The three conservation equations on one poll. *)
Definition aggregateInv (p : Poll) : Prop :=
  totalVotes p = sumVotes (options p)
  ∧ uniqueVoters p = Z.of_nat (length (votedUsers p))
  ∧ Forall optionInv (options p).

#[global] Instance optionInv_dec o : Decision (optionInv o).
Proof. unfold optionInv. apply _. Defined.

#[global] Instance aggregateInv_dec p : Decision (aggregateInv p).
Proof. unfold aggregateInv. apply _. Defined.

(** The ledger holds an accepted vote of [uid] in poll [pid]. *)
Definition hasLedgerVote (l : gmap ObjectId Vote) (pid uid : ObjectId) : Prop :=
  ∃ vid v, l !! vid = Some v ∧ vote_pollId v = pid ∧ vote_userId v = uid.

(** The schema bounds ([min: 0]) on the counters of a poll. *)
Definition countersNonneg (p : Poll) : Prop :=
  0 <= totalVotes p ∧ 0 <= uniqueVoters p ∧ Forall (fun o => 0 <= votes o) (options p).

(** ** The spec's wording of the percentage

    [votes / totalVotes * 100] rounded to two decimals, computed on the
    exact quotient, in hundredths; the wording leaves the treatment of a
    tie open, so the rule is a parameter. *)
Inductive TieRule := HalfUp | HalfDown | HalfEven | HalfOdd.

Definition spec_hundredths (rule : TieRule) (v total : Z) : Z :=
  let q := (10000 * v) / total in
  let r := (10000 * v) mod total in
  if 2 * r <? total then q
  else if 2 * r >? total then q + 1
  else match rule with
       | HalfUp => q + 1
       | HalfDown => q
       | HalfEven => if Z.even q then q else q + 1
       | HalfOdd => if Z.odd q then q else q + 1
       end.

Definition spec_percentage (rule : TieRule) (v total : Z) : Percentage :=
  if total >? 0 then PctString (hundredths (spec_hundredths rule v total))
  else PctString "0".

(** ** Sample data *)

Definition colours (quota : Z) : Poll :=
  mkPoll "Favourite colour" [mkOption "Red" 0 []; mkOption "Blue" 0 []]
         100 200 active 0 0 [] (mkSettings false quota).

Definition alice : User := mkUser "Alice" voter [].
Definition alice' : User := mkUser "Alice" voter [mkVotedPoll "p1" 110].

Definition world0 (quota : Z) : World :=
  mkWorld {[ "p1" := colours quota ]} ∅ {[ "u1" := alice ]}.

(** Alice votes for "Red" at time 110; the ledger entry gets id "v1". *)
Definition cast1 : CastReq :=
  mkCastReq "p1" 0 "u1" alice 110 110 110 110 "v1" 110 110.

(** Alice votes for "Red" again at time 120; the ledger entry gets id "v2". *)
Definition cast2 : CastReq :=
  mkCastReq "p1" 0 "u1" alice' 120 120 120 120 "v2" 120 120.

(** The same request as [cast1], the driver picking another [_id]. *)
Definition cast1' : CastReq :=
  mkCastReq "p1" 0 "u1" alice 110 110 110 110 "v9" 110 110.

(** A poll with options A (3 votes) and B (1 vote). *)
Definition pollAB : Poll :=
  mkPoll "A or B"
    [mkOption "A" 3 [mkVoter "u1" 1; mkVoter "u2" 2; mkVoter "u3" 3];
     mkOption "B" 1 [mkVoter "u4" 4]]
    0 1000 active 4 4 ["u1"; "u2"; "u3"; "u4"] (mkSettings false 1).

(** ** Vocabulary of the statements *)

(** The poll is effectively active at [now]. *)
Definition inWindow (p : Poll) (now : Date) : Prop :=
  status p = active ∧ startDate p <= now ∧ now < endDate p.

(** All voter records of the poll, option after option. *)
Definition voterRecords (p : Poll) : list Voter := concat (map voters (options p)).

(** The user's prior accepted votes, counted over the voter records. *)
Definition priorVotes (p : Poll) (uid : ObjectId) : Z :=
  Z.of_nat (length (filter (fun v => userId v = uid) (voterRecords p))).

Definition deny (msg : string) : CanVote := mkCanVote false (Some msg).
Definition allow : CanVote := mkCanVote true None.

(** The world after a successful cast. *)
Definition castWorld (req : CastReq) (p' : Poll) (v : Vote) (w : World) : World :=
  let w1 := set_polls (<[req_pollId req := p']> (polls w)) w in
  let w2 := set_ledger (<[new_voteId req := v]> (ledger w1)) w1 in
  if negb (hasVotedForPoll (req_user req) (req_pollId req))
  then set_users
         (<[req_userId req :=
              set_votedPolls (votedPolls (req_user req)
                              ++ [mkVotedPoll (req_pollId req) (t_history req)])
                             (req_user req)]> (users w2)) w2
  else w2.


(** The sample world after Alice's two votes, and the moderation request
    that deletes the first of them at time 130. *)
Definition world2 : World := (castVote cast2 (castVote cast1 (world0 2)).2).2.
Definition retract1 : DeleteReq := mkDeleteReq "v1" admin 130.



(** ** Reading [toFixed(2)] back *)

(** The magnitude of a finite double as an exact fraction. *)
Definition magnitude (x : float) : option (Z * Z) :=
  match Prim2SF x with
  | S754_zero _ => Some (0, 1)
  | S754_finite _ m e => Some (Z.pos m * 2 ^ Z.max 0 e, 2 ^ Z.max 0 (- e))
  | _ => None
  end.

Definition signText (x : float) : string :=
  match Prim2SF x with
  | S754_finite true _ _ => "-"
  | _ => ""
  end.

(** [n] hundredths is the multiple of 0.01 nearest to [|x|], the larger
    one when two are equally near. *)
Definition nearestHundredth (x : float) (n : Z) : Prop :=
  ∃ num den, magnitude x = Some (num, den) ∧ 0 < den
             ∧ - den <= 200 * num - 2 * n * den < den.

(** The double the source computes: [(votes / totalVotes) * 100]. *)
Definition ratioTimes100 (v total : Z) : float :=
  PrimFloat.mul (PrimFloat.div (number_of_Z v) (number_of_Z total)) (number_of_Z 100).

(** Where [toFixed] prints digits: [x] is finite and below 10^21 in
    magnitude. *)
Definition toFixedPrints (x : float) : Prop :=
  ∃ num den, magnitude x = Some (num, den) ∧ num < 10 ^ 21 * den.

(** A double that is zero, or finite, not negative and below [2^k]. *)
Definition sfWithin (k : Z) (x : spec_float) : Prop :=
  match x with
  | S754_zero _ => True
  | S754_finite s m e => s = false ∧ e <= k ∧ Z.pos m < 2 ^ (k - e)
  | _ => False
  end.

(** Two polls whose exact percentages fall on a tie: 201 of 20000 is
    1.005, and 1 of 800 is 0.125. *)
Definition pollTieA : Poll :=
  mkPoll "Tie A" [mkOption "X" 201 []; mkOption "Y" 19799 []]
         0 1000 active 20000 0 [] (mkSettings false 1).

Definition pollTieB : Poll :=
  mkPoll "Tie B" [mkOption "X" 1 []; mkOption "Y" 799 []]
         0 1000 active 800 0 [] (mkSettings false 1).

(** A poll whose exact percentage is just above a tie: 619903365296 of
    637531100217 is 97.2350000000000078..., and twice the remainder of the
    division in hundredths exceeds the divisor by one. *)
Definition pollOffTie : Poll :=
  mkPoll "Off tie" [mkOption "X" 619903365296 []; mkOption "Y" 17627734921 []]
         0 1000 active 637531100217 0 [] (mkSettings false 1).

(** ** Requests served one after another *)

(** A list of cast requests, each handled to completion before the next
    one starts. *)
Fixpoint castAll (reqs : list CastReq) (w : World) : list Response * World :=
  match reqs with
  | [] => ([], w)
  | req :: rest =>
    let '(r, w1) := castVote req w in
    let '(rs, w2) := castAll rest w1 in
    (r :: rs, w2)
  end.

(** Bob and Carol, and the three first votes of three distinct users. *)
Definition bob : User := mkUser "Bob" voter [].
Definition carol : User := mkUser "Carol" voter [].

Definition threeCasts : list CastReq :=
  [ cast1;
    mkCastReq "p1" 1 "u2" bob 120 120 120 120 "v2" 120 120;
    mkCastReq "p1" 0 "u3" carol 130 130 130 130 "v3" 130 130 ].

(** Alice's only vote, retracted: the poll is back to no votes, and the
    ledger still holds "v1" (the handler stopped before deleting it).
    Alice then votes again at time 140, the entry getting id "v3". *)
Definition worldAfterFailedDelete : World :=
  (deleteVote (mkDeleteReq "v1" admin 130) (castVote cast1 (world0 1)).2).2.

Definition castAgain : CastReq :=
  mkCastReq "p1" 0 "u1" alice' 140 140 140 140 "v3" 140 140.

(** ** Agreement between the ledger and the aggregates *)

(** Number of ledger entries satisfying [P]. *)
Definition ledgerCount (l : gmap ObjectId Vote) (P : Vote → Prop)
           `{!∀ v, Decision (P v)} : nat :=
  size (filter (fun kv : ObjectId * Vote => P kv.2) l).

(** Every poll's [votedUsers] lists exactly the users with a ledger
    entry for that poll. *)
Definition ledgerAgrees (w : World) : Prop :=
  ∀ pid p u, polls w !! pid = Some p →
             (u ∈ votedUsers p ↔ hasLedgerVote (ledger w) pid u).

(** Every option's counter is the number of ledger entries for that
    poll and that option index. *)
Definition tallyAgrees (w : World) : Prop :=
  ∀ pid p i o, polls w !! pid = Some p → options p !! i = Some o →
    votes o
    = Z.of_nat (ledgerCount (ledger w)
                  (fun v => vote_pollId v = pid ∧ optionIndex v = Z.of_nat i)).

(** No user has more voter records in the poll than the quota allows. *)
Definition withinQuota (p : Poll) : Prop :=
  ∀ u, priorVotes p u <= maxVotesAllowed p.

(** The user's history lists a poll at most once. *)
Definition historyOnce (u : User) : Prop := NoDup (map vp_pollId (votedPolls u)).

(** [userSchema.methods.getStats().totalVotes]. *)
Definition userTotalVotes (u : User) : Z := Z.of_nat (length (votedPolls u)).

(** ** Poll.js: the remaining virtual and statics *)

(** [pollSchema.virtual('timeRemaining')]. *)
Definition timeRemaining (p : Poll) (now : Date) : Z :=
  if now >? endDate p then 0 else endDate p - now.

(** The filter of [pollSchema.statics.getActivePolls]:
    [{ status: 'active', startDate: { $lte: now }, endDate: { $gt: now } }]. *)
Definition getActivePolls (now : Date) (m : gmap ObjectId Poll) : gmap ObjectId Poll :=
  filter (fun kv : ObjectId * Poll =>
            status kv.2 = active ∧ startDate kv.2 <= now ∧ endDate kv.2 > now) m.

(** [$sum] of a numeric expression over the documents of the collection. *)
Definition sumPolls (f : Poll → Z) (m : gmap ObjectId Poll) : Z :=
  map_fold (fun _ p acc => f p + acc) 0 m.

Record PollStatistics := mkPollStatistics {
  totalPolls : Z;
  activePolls : Z;
  completedPolls : Z;
  stat_totalVotes : Z;
  totalUniqueVoters : Z
}.

(** [pollSchema.statics.getStatistics]: one [$group] over the whole
    collection, and the all-zero object when the collection is empty
    ([stats[0]] is then undefined). *)
Definition getStatistics (m : gmap ObjectId Poll) : PollStatistics :=
  if decide (m = ∅) then mkPollStatistics 0 0 0 0 0
  else
    mkPollStatistics
      (sumPolls (fun _ => 1) m)
      (sumPolls (fun p => if bool_decide (status p = active) then 1 else 0) m)
      (sumPolls (fun p => if bool_decide (status p = completed) then 1 else 0) m)
      (sumPolls totalVotes m)
      (sumPolls uniqueVoters m).

(** ** routes/polls.js: handlers on one poll

    The fields of a poll document that the voting engine does not read
    are kept beside it: [meta id] gives them for the poll stored under
    [id].  None of the handlers modelled here writes them. *)
Record PollMeta := mkPollMeta {
  createdBy : ObjectId;
  isPublic : bool;
  showResultsBeforeEnd : bool;
  showResultsAfterVoting : bool
}.

(** [req.user] as the permission checks read it. *)
Record Actor := mkActor {
  actor_id : ObjectId;
  actor_role : Role
}.

(** [res.status(code).json({ message, ...body })]. *)
Record Reply (A : Type) := mkReply {
  reply_code : Z;
  reply_message : string;
  reply_body : option A
}.
Arguments mkReply {A} _ _ _.
Arguments reply_code {A} _.
Arguments reply_message {A} _.
Arguments reply_body {A} _.

Definition refuse {A} (c : Z) (msg : string) : Reply A := mkReply c msg None.

(** [req.user.role !== 'admin' && poll.createdBy.toString() !== req.user._id.toString()]. *)
Definition accessDenied (meta : ObjectId → PollMeta) (actor : Actor) (id : ObjectId) : bool :=
  bool_decide (actor_role actor ≠ admin)
  && bool_decide (createdBy (meta id) ≠ actor_id actor).

(** POST /api/polls/:id/toggle-status; the body of the answer is the
    [poll.status] reported. *)
Definition toggleStatus (meta : ObjectId → PollMeta) (actor : Actor) (id : ObjectId)
           (now : Date) (w : World) : Reply Status * World :=
  match polls w !! id with
  | None => (refuse 404 "Poll not found", w)
  | Some poll =>
    if accessDenied meta actor id then (refuse 403 "Access denied", w)
    else
      let toggled :=
        set_status (if bool_decide (status poll = active) then inactive else active) poll in
      let poll' := preSave now toggled in
      (mkReply 200 "Poll status updated successfully" (Some (status poll')),
       set_polls (<[id := poll']> (polls w)) w)
  end.

(** DELETE /api/polls/:id: the poll and, with [Vote.deleteMany], every
    ledger entry of the poll. *)
Definition deletePoll (meta : ObjectId → PollMeta) (actor : Actor) (id : ObjectId)
           (w : World) : Reply unit * World :=
  match polls w !! id with
  | None => (refuse 404 "Poll not found", w)
  | Some poll =>
    if accessDenied meta actor id then (refuse 403 "Access denied", w)
    else if (totalVotes poll >? 0) && bool_decide (actor_role actor ≠ admin)
    then (refuse 400 "Cannot delete poll with existing votes", w)
    else
      (mkReply 200 "Poll deleted successfully" None,
       set_ledger (filter (fun kv : ObjectId * Vote => vote_pollId kv.2 ≠ id) (ledger w))
                  (set_polls (delete id (polls w)) w))
  end.

(** The [canViewResults] expression of GET /api/polls/:id/results;
    [user] is [req.user], absent for a visitor. *)
Definition canViewResults (m : PollMeta) (user : option Actor) (poll : Poll) (now : Date)
  : bool :=
  hasEnded poll now
  || showResultsBeforeEnd m
  || match user with
     | Some a => bool_decide (actor_id a ∈ votedUsers poll) && showResultsAfterVoting m
     | None => false
     end
  || match user with
     | Some a => bool_decide (actor_role a = admin)
     | None => false
     end.

(** GET /api/polls/:id/results; [now] is read by the access check and
    [now'] by [getResults]. *)
Definition viewResults (meta : ObjectId → PollMeta) (user : option Actor) (id : ObjectId)
           (now now' : Date) (w : World) : Reply Results :=
  match polls w !! id with
  | None => refuse 404 "Poll not found"
  | Some poll =>
    if negb (canViewResults (meta id) user poll now)
    then refuse 403 "Results not available yet"
    else mkReply 200 "" (Some (getResults id poll now'))
  end.

(** ** User model: failed logins and the account lock *)

(** [loginAttempts] (default 0) and [lockUntil] (absent or a date). *)
Record LoginState := mkLoginState {
  loginAttempts : Z;
  lockUntil : option Date
}.

(** [userSchema.virtual('isLocked')]. *)
Definition isLocked (s : LoginState) (now : Date) : bool :=
  match lockUntil s with
  | Some l => l >? now
  | None => false
  end.

(** One call of [incLoginAttempts], with its three clock readings: the
    expiry test, the [isLocked] test, and the start of the new lock. *)
Record Attempt := mkAttempt {
  at_expiry : Date;
  at_locked : Date;
  at_lock : Date
}.

(** [userSchema.methods.incLoginAttempts]: the stored state after the
    [updateOne]. *)
Definition incLoginAttempts (s : LoginState) (a : Attempt) : LoginState :=
  if match lockUntil s with Some l => l <? at_expiry a | None => false end
  then mkLoginState 1 None
  else if (loginAttempts s + 1 >=? 5) && negb (isLocked s (at_locked a))
  then mkLoginState (loginAttempts s + 1) (Some (at_lock a + 2 * 60 * 60 * 1000))
  else mkLoginState (loginAttempts s + 1) (lockUntil s).

(** [userSchema.methods.resetLoginAttempts]: both fields unset. *)
Definition resetLoginAttempts (s : LoginState) : LoginState := mkLoginState 0 None.

(** A run of failed logins. *)
Definition failedLogins (s : LoginState) (attempts : list Attempt) : LoginState :=
  fold_left incLoginAttempts attempts s.

(** The sample poll after Alice's first vote, and after her second. *)
Definition coloursAfter1 : Poll :=
  mkPoll "Favourite colour" [mkOption "Red" 1 [mkVoter "u1" 110]; mkOption "Blue" 0 []]
         100 200 active 1 1 ["u1"] (mkSettings false 2).

Definition coloursAfter2 : Poll :=
  mkPoll "Favourite colour"
         [mkOption "Red" 2 [mkVoter "u1" 110; mkVoter "u1" 120]; mkOption "Blue" 0 []]
         100 200 active 2 1 ["u1"] (mkSettings false 2).

Definition vote1 : Vote := mkVote "p1" "u1" 0 "Red" false 110.
Definition vote2 : Vote := mkVote "p1" "u1" 0 "Red" false 120.

(** Sample access data: every poll was created by "u9" and uses the
    schema defaults (public, results shown after voting only). *)
Definition metaDefault (id : ObjectId) : PollMeta := mkPollMeta "u9" true false true.

Definition owner : Actor := mkActor "u9" voter.
Definition stranger : Actor := mkActor "u5" voter.
Definition moderator : Actor := mkActor "u0" admin.

(** A new account, and a failed login at one instant. *)
Definition freshLogin : LoginState := mkLoginState 0 None.
Definition failAt (t : Date) : Attempt := mkAttempt t t t.

(** ** routes/polls.js: GET /api/polls/:id *)

(** The part of the answer that depends on the engine: the poll as
    written back, and for an authenticated caller [hasUserVoted] and
    [canUserVote]. *)
Record PollView := mkPollView {
  view_poll : Poll;
  hasUserVoted : option bool;
  view_canUserVote : option CanVote
}.

(** The handler: a private poll is shown to administrators only; the
    view is counted and the document saved, which runs the pre-save hook
    at [now]; [canUserVote] then reads the clock at [now'].  The counter
    [metadata.views], a field outside this model, is left out. *)
Definition viewPoll (meta : ObjectId → PollMeta) (user : option Actor) (id : ObjectId)
           (now now' : Date) (w : World) : Reply PollView * World :=
  match polls w !! id with
  | None => (refuse 404 "Poll not found", w)
  | Some poll =>
    if negb (isPublic (meta id))
       && match user with
          | Some a => bool_decide (actor_role a ≠ admin)
          | None => true
          end
    then (refuse 403 "Access denied to private poll", w)
    else
      let poll' := preSave now poll in
      let view :=
        match user with
        | Some a =>
          mkPollView poll'
            (Some (bool_decide (actor_id a ∈ votedUsers poll')))
            (Some (canUserVote poll' (actor_id a) now'))
        | None => mkPollView poll' None None
        end in
      (mkReply 200 "" (Some view), set_polls (<[id := poll']> (polls w)) w)
  end.

(** ** middleware/auth.js *)

(** What [jwt.verify] makes of the [Authorization] header. *)
Inductive Token :=
  | NoToken
  | BadToken                       (* JsonWebTokenError *)
  | ExpiredToken                   (* TokenExpiredError *)
  | VerifyFailed                   (* any other error *)
  | Decoded (uid : ObjectId).

(** [userSchema], restricted to what the middleware reads. *)
Record Account := mkAccount {
  acc_role : Role;
  acc_isActive : bool;
  acc_login : LoginState
}.

(** The outcome of a middleware: the request goes on with [req.user], or
    it is answered. *)
Inductive Gate :=
  | Next (user : option Actor)
  | Answered (c : Z) (msg : string).

(** [authenticateToken]. *)
Definition authenticateToken (tok : Token) (accounts : gmap ObjectId Account) (now : Date)
  : Gate :=
  match tok with
  | NoToken => Answered 401 "Access token required"
  | BadToken => Answered 401 "Invalid token"
  | ExpiredToken => Answered 401 "Token expired"
  | VerifyFailed => Answered 500 "Token verification failed"
  | Decoded uid =>
    match accounts !! uid with
    | None => Answered 401 "Invalid token - user not found"
    | Some a =>
      if negb (acc_isActive a) then Answered 401 "Account is deactivated"
      else if isLocked (acc_login a) now then Answered 401 "Account is temporarily locked"
      else Next (Some (mkActor uid (acc_role a)))
    end
  end.

(** [optionalAuth]. *)
Definition optionalAuth (tok : Token) (accounts : gmap ObjectId Account) (now : Date)
  : Gate :=
  match tok with
  | Decoded uid =>
    match accounts !! uid with
    | Some a =>
      if acc_isActive a && negb (isLocked (acc_login a) now)
      then Next (Some (mkActor uid (acc_role a)))
      else Next None
    | None => Next None
    end
  | _ => Next None
  end.

(** [requireAdmin] and [requireVoter], after authentication. *)
Definition requireAdmin (a : Actor) : Gate :=
  if bool_decide (actor_role a ≠ admin) then Answered 403 "Admin access required"
  else Next (Some a).

Definition requireVoter (a : Actor) : Gate :=
  if bool_decide (actor_role a ≠ voter) && bool_decide (actor_role a ≠ admin)
  then Answered 403 "Voter access required"
  else Next (Some a).
(** * Properties *)

(** ** Lifecycle transition on save *)

Lemma preSave_status_only (now : Date) (p : Poll) :
  set_status (status p) (preSave now p) = p.
Proof.
  unfold preSave. destruct p as [ti os sd ed st tv uv vu se]; simpl.
  repeat case_match; reflexivity.
Qed.

Lemma preSave_inactive (now : Date) (p : Poll) :
  status p ≠ active → preSave now p = p.
Proof.
  intros Hne. unfold preSave. rewrite bool_decide_eq_false_2; done.
Qed.

Lemma preSave_idempotent (now : Date) (p : Poll) :
  preSave now (preSave now p) = preSave now p.
Proof.
  unfold preSave at 2 3.
  case_bool_decide as Hact; [| by apply preSave_inactive].
  destruct (now <? startDate p) eqn:Hs; [by apply preSave_inactive |].
  destruct (now >? endDate p) eqn:He; [by apply preSave_inactive |].
  unfold preSave. rewrite bool_decide_eq_true_2, Hs, He; done.
Qed.

(** C7, as the code has it: on save, a poll stored as [active] becomes
    [draft] when [now < startDate], and [completed] when [now > endDate]
    (strictly, and not before [startDate]); from [startDate] to [endDate]
    inclusive it is left as it is, so exactly at [now = endDate] it stays
    [active].  A poll whose stored status is not [active] is left
    unchanged, nothing but the status is ever written, and running the
    transition twice at the same instant is the same as running it once. *)
Theorem preSave_transition (p : Poll) (now : Date) :
  (status p = active → now < startDate p → preSave now p = set_status draft p)
  ∧ (status p = active → startDate p <= now → endDate p < now →
     preSave now p = set_status completed p)
  ∧ (status p = active → startDate p <= now <= endDate p → preSave now p = p)
  ∧ (status p ≠ active → preSave now p = p)
  ∧ set_status (status p) (preSave now p) = p
  ∧ preSave now (preSave now p) = preSave now p.
Proof.
  repeat split.
  - intros Ha Hlt. unfold preSave.
    rewrite bool_decide_eq_true_2 by done.
    by rewrite (proj2 (Z.ltb_lt _ _) Hlt).
  - intros Ha Hge Hgt. unfold preSave.
    rewrite bool_decide_eq_true_2 by done.
    rewrite (proj2 (Z.ltb_ge _ _) Hge).
    by rewrite (proj2 (Z.gtb_gt _ _)) by lia.
  - intros Ha [Hge Hle]. unfold preSave.
    rewrite bool_decide_eq_true_2 by done.
    rewrite (proj2 (Z.ltb_ge _ _) Hge).
    destruct (now >? endDate p) eqn:He; [| done].
    apply Z.gtb_gt in He. lia.
  - apply preSave_inactive.
  - apply preSave_status_only.
  - apply preSave_idempotent.
Qed.

(** The three branches of the transition on the sample poll (window
    100..200): before the start, after the end, and at the end. *)
Lemma preSave_transition_witness :
  preSave 50 (colours 1) = set_status draft (colours 1)
  ∧ preSave 250 (colours 1) = set_status completed (colours 1)
  ∧ preSave 200 (colours 1) = colours 1
  ∧ preSave 250 (set_status cancelled (colours 1)) = set_status cancelled (colours 1).
Proof.
  destruct (preSave_transition (colours 1) 50) as (H1 & _).
  destruct (preSave_transition (colours 1) 250) as (_ & H2 & _).
  destruct (preSave_transition (colours 1) 200) as (_ & _ & H3 & _).
  destruct (preSave_transition (set_status cancelled (colours 1)) 250)
    as (_ & _ & _ & H4 & _).
  split; [apply H1; [reflexivity | simpl; lia] |].
  split; [apply H2; [reflexivity | simpl; lia | simpl; lia] |].
  split; [apply H3; [reflexivity | simpl; lia] |].
  apply H4. discriminate.
Defined.

(** C7 as stated fails at the boundary: the sample poll is stored as
    [active] and ends at 200; saved exactly at 200 it is still [active],
    not [completed]. *)
Lemma preSave_at_endDate_not_completed :
  status (colours 1) = active
  ∧ endDate (colours 1) = 200
  ∧ status (preSave 200 (colours 1)) = active
  ∧ status (preSave 200 (colours 1)) <> completed.
Proof. repeat split; discriminate. Qed.

(** ** Eligibility *)

Lemma isActive_inWindow (p : Poll) (now : Date) :
  isActive p now = true ↔ inWindow p now.
Proof.
  unfold isActive, inWindow.
  rewrite !andb_true_iff, bool_decide_eq_true, Z.leb_le, Z.gtb_gt.
  intuition lia.
Qed.

Lemma isActive_outside (p : Poll) (now : Date) :
  isActive p now = false ↔ ¬ inWindow p now.
Proof.
  rewrite <- isActive_inWindow. destruct (isActive p now); split; congruence.
Qed.

(** The [reduce] of [canUserVote] counts the user's records over all
    options. *)
Lemma count_records_from (uid : ObjectId) (os : list PollOption) (acc : Z) :
  fold_left
    (fun count opt =>
       count + Z.of_nat (length (filter (fun v => userId v = uid) (voters opt))))
    os acc
  = acc + Z.of_nat (length (filter (fun v => userId v = uid)
                                   (concat (map voters os)))).
Proof.
  revert acc. induction os as [| o os IH]; intros acc; simpl.
  - lia.
  - rewrite IH, filter_app, length_app. lia.
Qed.

Lemma userVoteCount_priorVotes (p : Poll) (uid : ObjectId) :
  userVoteCount p uid = priorVotes p uid.
Proof. unfold userVoteCount, priorVotes, voterRecords. by rewrite count_records_from. Qed.

Lemma maxVotesAllowed_schema (p : Poll) :
  maxVotesPerUser (settings p) ≠ 0 → maxVotesAllowed p = maxVotesPerUser (settings p).
Proof.
  intros Hne. unfold maxVotesAllowed.
  destruct (maxVotesPerUser (settings p) =? 0) eqn:E; [| done].
  apply Z.eqb_eq in E. done.
Qed.

(** C3, as the code has it: the rules are evaluated in order and the
    first failure wins.  The check answers not-allowed with the reason
    "Poll is not active" exactly when the poll is not effectively active
    ([status = active] and [startDate <= now < endDate]); otherwise, when
    the user's voter records over all options number at least [N], it
    answers not-allowed with the reason "Maximum votes per user reached
    (N)"; otherwise it answers allowed, with no reason.  [N] is
    [maxVotesPerUser || 1]: [maxVotesPerUser] itself unless that is 0. *)
Theorem canUserVote_rules (p : Poll) (uid : ObjectId) (now : Date) :
  (canUserVote p uid now = deny "Poll is not active" ↔ ¬ inWindow p now)
  ∧ (inWindow p now → maxVotesAllowed p <= priorVotes p uid →
     canUserVote p uid now
     = deny ("Maximum votes per user reached ("
             +:+ string_of_Z (maxVotesAllowed p) +:+ ")"))
  ∧ (inWindow p now → priorVotes p uid < maxVotesAllowed p →
     canUserVote p uid now = allow)
  ∧ (maxVotesPerUser (settings p) ≠ 0 →
     maxVotesAllowed p = maxVotesPerUser (settings p)).
Proof.
  unfold canUserVote. rewrite userVoteCount_priorVotes.
  split; [| split; [| split]].
  - rewrite <- isActive_outside.
    destruct (isActive p now); simpl.
    + split; [| discriminate].
      destruct (priorVotes p uid >=? maxVotesAllowed p); unfold deny; discriminate.
    + done.
  - intros Hw Hge. apply isActive_inWindow in Hw. rewrite Hw; simpl.
    by rewrite (proj2 (Z.geb_le _ _) Hge).
  - intros Hw Hlt. apply isActive_inWindow in Hw. rewrite Hw; simpl.
    destruct (priorVotes p uid >=? maxVotesAllowed p) eqn:E; [| done].
    apply Z.geb_le in E. lia.
  - apply maxVotesAllowed_schema.
Qed.

(** The three outcomes on the sample poll (quota 1, window 100..200):
    closed at 300; open at 150 for a user without a record; and, for the
    poll with four recorded voters, quota reached for one of them. *)
Lemma canUserVote_rules_witness :
  canUserVote (colours 1) "u1" 300 = deny "Poll is not active"
  ∧ canUserVote pollAB "u4" 500 = deny "Maximum votes per user reached (1)"
  ∧ canUserVote (colours 1) "u1" 150 = allow
  ∧ maxVotesAllowed (colours 1) = 1.
Proof.
  destruct (canUserVote_rules (colours 1) "u1" 300) as (H1 & _).
  destruct (canUserVote_rules pollAB "u4" 500) as (_ & H2 & _).
  destruct (canUserVote_rules (colours 1) "u1" 150) as (_ & _ & H3 & H4).
  split; [apply H1; unfold inWindow; simpl; lia |].
  split; [apply H2; [unfold inWindow; simpl; split; [done | lia] | vm_compute; discriminate] |].
  split; [apply H3; [unfold inWindow; simpl; split; [done | lia] | vm_compute; reflexivity] |].
  apply H4. simpl. lia.
Defined.

(** C3 as stated names reasons the code does not produce: the rejection
    of a closed poll carries "Poll is not active", and the quota rejection
    "Maximum votes per user reached (1)". *)
Lemma canUserVote_reason_texts :
  canUserVote (colours 1) "u1" 300 <> deny "poll not active"
  ∧ canUserVote pollAB "u4" 500 <> deny "maximum votes per user reached (1)".
Proof. split; vm_compute; discriminate. Qed.

(** ** addVote and the cast handler *)

(** What [addVote] returns when it does not throw. *)
Lemma addVote_returned (p p' : Poll) (uid : ObjectId) (idx : Z) (now stamp : Date) :
  addVote p uid idx now stamp = Returned p' →
  canVote (canUserVote p uid now) = true
  ∧ 0 <= idx < Z.of_nat (length (options p))
  ∧ options p' = alter (castOn uid stamp) (Z.to_nat idx) (options p)
  ∧ totalVotes p' = totalVotes p + 1
  ∧ votedUsers p'
    = (if bool_decide (uid ∈ votedUsers p) then votedUsers p else votedUsers p ++ [uid])
  ∧ uniqueVoters p'
    = (if bool_decide (uid ∈ votedUsers p) then uniqueVoters p else uniqueVoters p + 1)
  ∧ set_status (status p) (set_options (options p) (set_totalVotes (totalVotes p)
      (set_uniqueVoters (uniqueVoters p) (set_votedUsers (votedUsers p) p')))) = p.
Proof.
  unfold addVote.
  destruct (canVote (canUserVote p uid now)) eqn:Hcan; simpl; [| discriminate].
  destruct ((idx <? 0) || (idx >=? Z.of_nat (length (options p)))) eqn:Hrange;
    [discriminate |].
  apply orb_false_iff in Hrange as [Hlo Hhi].
  apply Z.ltb_ge in Hlo. rewrite Z.geb_leb in Hhi. apply Z.leb_gt in Hhi.
  destruct p as [ti os sd ed st tv uv vu se]; simpl in *.
  case_bool_decide; intros [= <-]; simpl; repeat split; auto; lia.
Qed.

Lemma addVote_threw (p : Poll) (uid : ObjectId) (idx : Z) (now stamp : Date) (msg : string) :
  addVote p uid idx now stamp = Threw msg →
  canVote (canUserVote p uid now) = false
  ∨ idx < 0 ∨ Z.of_nat (length (options p)) <= idx.
Proof.
  unfold addVote.
  destruct (canVote (canUserVote p uid now)); simpl; [| by left].
  destruct ((idx <? 0) || (idx >=? Z.of_nat (length (options p)))) eqn:Hrange.
  - intros _. right. apply orb_true_iff in Hrange as [H | H].
    + apply Z.ltb_lt in H. lia.
    + rewrite Z.geb_leb in H. apply Z.leb_le in H. lia.
  - case_bool_decide; discriminate.
Qed.

Lemma preSave_options (now : Date) (p : Poll) : options (preSave now p) = options p.
Proof. rewrite <- (preSave_status_only now p) at 2. reflexivity. Qed.

Lemma preSave_totalVotes (now : Date) (p : Poll) : totalVotes (preSave now p) = totalVotes p.
Proof. rewrite <- (preSave_status_only now p) at 2. reflexivity. Qed.

Lemma preSave_uniqueVoters (now : Date) (p : Poll) :
  uniqueVoters (preSave now p) = uniqueVoters p.
Proof. rewrite <- (preSave_status_only now p) at 2. reflexivity. Qed.

Lemma preSave_votedUsers (now : Date) (p : Poll) : votedUsers (preSave now p) = votedUsers p.
Proof. rewrite <- (preSave_status_only now p) at 2. reflexivity. Qed.

Lemma preSave_settings (now : Date) (p : Poll) : settings (preSave now p) = settings p.
Proof. rewrite <- (preSave_status_only now p) at 2. reflexivity. Qed.

Lemma js_index_lookup {A} (l : list A) (i : Z) :
  0 <= i → js_index l i = l !! Z.to_nat i.
Proof. intros Hi. unfold js_index. by rewrite (proj2 (Z.ltb_ge _ _) Hi). Qed.

Lemma js_index_in_range {A} (l : list A) (i : Z) :
  0 <= i < Z.of_nat (length l) → is_Some (js_index l i).
Proof.
  intros Hi. rewrite js_index_lookup by lia. apply lookup_lt_is_Some. lia.
Qed.

(** Every run of the handler is one of five: the four rejections, which
    leave the world as it was, or the successful cast. *)
Lemma castVote_cases (req : CastReq) (w : World) :
  (polls w !! req_pollId req = None
   ∧ castVote req w = (respond 404 "Poll not found", w))
  ∨ (∃ p, polls w !! req_pollId req = Some p
      ∧ canVote (canUserVote p (req_userId req) (t_check req)) = false
      ∧ castVote req w
        = (respond 400 (default "" (reason (canUserVote p (req_userId req) (t_check req)))), w))
  ∨ (∃ p, polls w !! req_pollId req = Some p
      ∧ canVote (canUserVote p (req_userId req) (t_check req)) = true
      ∧ (req_optionIndex req < 0 ∨ Z.of_nat (length (options p)) <= req_optionIndex req)
      ∧ castVote req w = (respond 400 "Invalid option selected", w))
  ∨ (∃ p msg, polls w !! req_pollId req = Some p
      ∧ addVote p (req_userId req) (req_optionIndex req) (t_add req) (t_stamp req)
        = Threw msg
      ∧ castVote req w = (respond 500 (or_else msg "Server error casting vote"), w))
  ∨ (∃ p p' o,
      polls w !! req_pollId req = Some p
      ∧ canVote (canUserVote p (req_userId req) (t_check req)) = true
      ∧ addVote p (req_userId req) (req_optionIndex req) (t_add req) (t_stamp req)
        = Returned p'
      ∧ options p' !! Z.to_nat (req_optionIndex req) = Some o
      ∧ let v := mkVote (req_pollId req) (req_userId req) (req_optionIndex req)
                        (text o) (anonymousVoting (settings p')) (t_vote req) in
        castVote req w
        = (mkResponse 201 "Vote cast successfully"
             (Some (mkReceipt (req_pollId req) (req_optionIndex req) (text o) (t_vote req))),
           castWorld req (preSave (t_save req) p') v w)).
Proof.
  unfold castVote, cast_begin.
  destruct (polls w !! req_pollId req) as [p |] eqn:Hp; [| by left].
  right.
  destruct (canVote (canUserVote p (req_userId req) (t_check req))) eqn:Hcan; simpl;
    [| left; eauto].
  right.
  destruct ((req_optionIndex req <? 0)
            || (req_optionIndex req >=? Z.of_nat (length (options p)))) eqn:Hrange.
  { left. exists p. repeat split; auto.
    apply orb_true_iff in Hrange as [H | H].
    - apply Z.ltb_lt in H. lia.
    - rewrite Z.geb_leb in H. apply Z.leb_le in H. lia. }
  right.
  destruct (addVote p (req_userId req) (req_optionIndex req) (t_add req) (t_stamp req))
    as [p' | msg] eqn:Hadd; [| left; eauto].
  right.
  destruct (addVote_returned _ _ _ _ _ _ Hadd) as (_ & Hidx & Hopts & _).
  assert (Hsome : is_Some (options p' !! Z.to_nat (req_optionIndex req))).
  { apply lookup_lt_is_Some. rewrite Hopts, length_alter. lia. }
  destruct Hsome as [o Ho].
  exists p, p', o. repeat split; auto.
  unfold cast_savePoll, cast_saveVote, cast_history, addVotedPoll, castWorld; simpl.
  rewrite !js_index_lookup by lia. rewrite preSave_options, Ho; simpl.
  rewrite preSave_settings.
  by destruct (hasVotedForPoll (req_user req) (req_pollId req)).
Qed.

(** C4: a cast that is rejected changes nothing, and the checks run in
    the order poll lookup, eligibility, option range.  When the poll is
    absent the answer is 404; when the poll exists and the eligibility
    check fails the answer is the 400 carrying that reason, whatever the
    option index is; only an eligible request reaches the range check and
    its 400.  In each case, and in every run that does not end in the 201
    response, the world after the call (polls, ledger, users) is the
    world before it. *)
Theorem castVote_rejections (req : CastReq) (w : World) :
  (polls w !! req_pollId req = None →
   castVote req w = (respond 404 "Poll not found", w))
  ∧ (∀ p, polls w !! req_pollId req = Some p →
          canVote (canUserVote p (req_userId req) (t_check req)) = false →
          castVote req w
          = (respond 400 (default "" (reason (canUserVote p (req_userId req) (t_check req)))),
             w))
  ∧ (∀ p, polls w !! req_pollId req = Some p →
          canVote (canUserVote p (req_userId req) (t_check req)) = true →
          req_optionIndex req < 0 ∨ Z.of_nat (length (options p)) <= req_optionIndex req →
          castVote req w = (respond 400 "Invalid option selected", w))
  ∧ (∀ r w', castVote req w = (r, w') → code r ≠ 201 → w' = w).
Proof.
  split; [| split; [| split]].
  - intros Hnone. unfold castVote, cast_begin. by rewrite Hnone.
  - intros p Hp Hcan. unfold castVote, cast_begin. by rewrite Hp, Hcan.
  - intros p Hp Hcan Hrange. unfold castVote, cast_begin. rewrite Hp, Hcan; simpl.
    destruct ((req_optionIndex req <? 0)
              || (req_optionIndex req >=? Z.of_nat (length (options p)))) eqn:E; [done |].
    apply orb_false_iff in E as [Hlo Hhi].
    apply Z.ltb_ge in Hlo. rewrite Z.geb_leb in Hhi. apply Z.leb_gt in Hhi. lia.
  - intros r w' Hrun Hcode.
    destruct (castVote_cases req w)
      as [(_ & E) | [(p & _ & _ & E) | [(p & _ & _ & _ & E)
         | [(p & msg & _ & _ & E) | (p & p' & o & _ & _ & _ & _ & E)]]]];
      simpl in E; rewrite E in Hrun; inversion Hrun; subst; try reflexivity.
    simpl in Hcode. done.
Qed.

(** The three rejections on the sample world: an unknown poll; a closed
    poll asked for an option that does not exist (the eligibility answer
    comes first); an open poll asked for an option that does not exist. *)
Lemma castVote_rejections_witness :
  castVote (mkCastReq "p7" 0 "u1" alice 110 110 110 110 "v1" 110 110) (world0 1)
  = (respond 404 "Poll not found", world0 1)
  ∧ castVote (mkCastReq "p1" 5 "u1" alice 300 300 300 300 "v1" 300 300) (world0 1)
    = (respond 400 "Poll is not active", world0 1)
  ∧ castVote (mkCastReq "p1" 5 "u1" alice 110 110 110 110 "v1" 110 110) (world0 1)
    = (respond 400 "Invalid option selected", world0 1)
  ∧ (castVote (mkCastReq "p1" 5 "u1" alice 110 110 110 110 "v1" 110 110) (world0 1)).2
    = world0 1.
Proof.
  split; [| split; [| split]].
  - apply (castVote_rejections
             (mkCastReq "p7" 0 "u1" alice 110 110 110 110 "v1" 110 110) (world0 1)).
    reflexivity.
  - apply (proj1 (proj2 (castVote_rejections
             (mkCastReq "p1" 5 "u1" alice 300 300 300 300 "v1" 300 300) (world0 1)))
             (colours 1)); reflexivity.
  - apply (proj1 (proj2 (proj2 (castVote_rejections
             (mkCastReq "p1" 5 "u1" alice 110 110 110 110 "v1" 110 110) (world0 1))))
             (colours 1)); [reflexivity | reflexivity | simpl; lia].
  - apply (proj2 (proj2 (proj2 (castVote_rejections
             (mkCastReq "p1" 5 "u1" alice 110 110 110 110 "v1" 110 110) (world0 1))))
             (respond 400 "Invalid option selected")); [reflexivity | simpl; lia].
Defined.

(** C2: what a successful cast does to the poll.  The option voted for
    has its counter raised by one and one voter record of the user
    appended; every other option is as before; [totalVotes] is raised by
    one; and the user is appended to [votedUsers], with [uniqueVoters]
    raised by one, exactly when the user was not in [votedUsers] already -
    otherwise both are unchanged. *)
Theorem castVote_effect (req : CastReq) (w w' : World) (r : Response) :
  castVote req w = (r, w') → code r = 201 →
  ∃ p p' o,
    polls w !! req_pollId req = Some p
    ∧ polls w' !! req_pollId req = Some p'
    ∧ 0 <= req_optionIndex req < Z.of_nat (length (options p))
    ∧ options p !! Z.to_nat (req_optionIndex req) = Some o
    ∧ options p' !! Z.to_nat (req_optionIndex req)
      = Some (mkOption (text o) (votes o + 1)
                       (voters o ++ [mkVoter (req_userId req) (t_stamp req)]))
    ∧ (∀ j, j ≠ Z.to_nat (req_optionIndex req) → options p' !! j = options p !! j)
    ∧ length (options p') = length (options p)
    ∧ totalVotes p' = totalVotes p + 1
    ∧ (req_userId req ∈ votedUsers p →
       votedUsers p' = votedUsers p ∧ uniqueVoters p' = uniqueVoters p)
    ∧ (req_userId req ∉ votedUsers p →
       votedUsers p' = votedUsers p ++ [req_userId req]
       ∧ uniqueVoters p' = uniqueVoters p + 1).
Proof.
  intros Hrun Hcode.
  destruct (castVote_cases req w)
    as [(_ & E) | [(p & _ & _ & E) | [(p & _ & _ & _ & E)
       | [(p & msg & _ & _ & E) | (p & p' & o' & Hp & _ & Hadd & _ & E)]]]];
    simpl in E; rewrite E in Hrun; inversion Hrun; subst; try discriminate.
  clear Hrun Hcode E.
  destruct (addVote_returned _ _ _ _ _ _ Hadd) as (_ & Hidx & Hopts & Htv & Hvu & Huv & _).
  destruct (lookup_lt_is_Some_2 (options p) (Z.to_nat (req_optionIndex req))) as [o Ho];
    [lia |].
  exists p, (preSave (t_save req) p'), o.
  rewrite preSave_options, preSave_totalVotes, preSave_votedUsers, preSave_uniqueVoters.
  rewrite Hopts, Htv, Hvu, Huv.
  split; [done |]. split.
  { unfold castWorld. destruct (negb _); simpl; apply lookup_insert_eq. }
  split; [done |]. split; [done |]. split.
  { by rewrite list_lookup_alter_eq, Ho. }
  split; [intros j Hj; by apply list_lookup_alter_ne |].
  split; [apply length_alter |]. split; [done |].
  split; intros Hin.
  - by rewrite bool_decide_eq_true_2.
  - by rewrite bool_decide_eq_false_2.
Qed.

(** The first vote of the sample run: Alice, not yet in [votedUsers],
    votes for "Red". *)
Lemma castVote_effect_witness :
  ∃ p p' o,
    polls (world0 2) !! "p1" = Some p
    ∧ polls (castVote cast1 (world0 2)).2 !! "p1" = Some p'
    ∧ 0 <= 0 < Z.of_nat (length (options p))
    ∧ options p !! 0%nat = Some o
    ∧ options p' !! 0%nat = Some (mkOption (text o) (votes o + 1) (voters o ++ [mkVoter "u1" 110]))
    ∧ (∀ j, j ≠ 0%nat → options p' !! j = options p !! j)
    ∧ length (options p') = length (options p)
    ∧ totalVotes p' = totalVotes p + 1
    ∧ ("u1" ∈ votedUsers p → votedUsers p' = votedUsers p ∧ uniqueVoters p' = uniqueVoters p)
    ∧ ("u1" ∉ votedUsers p →
       votedUsers p' = votedUsers p ++ ["u1"] ∧ uniqueVoters p' = uniqueVoters p + 1).
Proof.
  apply (castVote_effect cast1 (world0 2) (castVote cast1 (world0 2)).2
                         (castVote cast1 (world0 2)).1).
  - vm_compute. reflexivity.
  - vm_compute. reflexivity.
Defined.

(** C9, as the code has it: the [vote] object of the 201 response holds
    the poll's id, the option index voted for, the text of the chosen
    option and the [createdAt] of the ledger entry just persisted (whose
    own fields agree with it); the [_id] of that entry is not part of
    the response. *)
Theorem castVote_receipt (req : CastReq) (w w' : World) (r : Response) :
  castVote req w = (r, w') → code r = 201 →
  ∃ p' o v,
    polls w' !! req_pollId req = Some p'
    ∧ options p' !! Z.to_nat (req_optionIndex req) = Some o
    ∧ ledger w' !! new_voteId req = Some v
    ∧ vote_pollId v = req_pollId req
    ∧ vote_userId v = req_userId req
    ∧ optionIndex v = req_optionIndex req
    ∧ optionText v = text o
    ∧ r = mkResponse 201 "Vote cast successfully"
            (Some (mkReceipt (req_pollId req) (req_optionIndex req) (text o) (createdAt v))).
Proof.
  intros Hrun Hcode.
  destruct (castVote_cases req w)
    as [(_ & E) | [(p & _ & _ & E) | [(p & _ & _ & _ & E)
       | [(p & msg & _ & _ & E) | (p & p' & o & Hp & _ & Hadd & Ho & E)]]]];
    simpl in E; rewrite E in Hrun; inversion Hrun; subst; try discriminate.
  clear Hrun Hcode E.
  eexists (preSave (t_save req) p'), o, _.
  rewrite preSave_options.
  split; [unfold castWorld; destruct (negb _); simpl; apply lookup_insert_eq |].
  split; [done |].
  split; [unfold castWorld; destruct (negb _); simpl; apply lookup_insert_eq |].
  done.
Qed.

Lemma castVote_receipt_witness :
  ∃ p' o v,
    polls (castVote cast1 (world0 2)).2 !! "p1" = Some p'
    ∧ options p' !! 0%nat = Some o
    ∧ ledger (castVote cast1 (world0 2)).2 !! "v1" = Some v
    ∧ vote_pollId v = "p1"
    ∧ vote_userId v = "u1"
    ∧ optionIndex v = 0
    ∧ optionText v = text o
    ∧ (castVote cast1 (world0 2)).1
      = mkResponse 201 "Vote cast successfully"
          (Some (mkReceipt "p1" 0 (text o) (createdAt v))).
Proof.
  apply (castVote_receipt cast1 (world0 2) (castVote cast1 (world0 2)).2
                          (castVote cast1 (world0 2)).1).
  - vm_compute. reflexivity.
  - vm_compute. reflexivity.
Defined.

(** C9 as stated fails: the same request answered twice from the same
    world, the driver choosing the ids "v1" and then "v9" for the ledger
    entry, gives the same 201 response although the two persisted entries
    have different identities. *)
Lemma receipt_without_vote_id :
  (castVote cast1 (world0 2)).1 = (castVote cast1' (world0 2)).1
  ∧ code (castVote cast1 (world0 2)).1 = 201
  ∧ new_voteId cast1 <> new_voteId cast1'
  ∧ is_Some (ledger (castVote cast1 (world0 2)).2 !! "v1")
  ∧ ledger (castVote cast1' (world0 2)).2 !! "v1" = None
  ∧ is_Some (ledger (castVote cast1' (world0 2)).2 !! "v9").
Proof.
  repeat split; try (vm_compute; (reflexivity || discriminate || eauto)).
Qed.

(** ** Conservation *)

Lemma sumVotes_alter_castOn (uid : ObjectId) (stamp : Date) (os : list PollOption) (i : nat) :
  (i < length os)%nat →
  sumVotes (alter (castOn uid stamp) i os) = sumVotes os + 1.
Proof.
  revert i. induction os as [| o os IH]; intros [| i] Hi; simpl in *; try lia.
  fold (alter (castOn uid stamp) i os). rewrite IH by lia. lia.
Qed.

Lemma optionInv_castOn (uid : ObjectId) (stamp : Date) (o : PollOption) :
  optionInv o → optionInv (castOn uid stamp o).
Proof. unfold optionInv, castOn; simpl. rewrite length_app; simpl. lia. Qed.

Lemma Forall_alter_castOn (uid : ObjectId) (stamp : Date) (os : list PollOption) (i : nat) :
  Forall optionInv os → Forall optionInv (alter (castOn uid stamp) i os).
Proof.
  intros H. revert i. induction H as [| o os Ho Hos IH]; intros [| i]; simpl.
  - constructor.
  - constructor.
  - constructor; [by apply optionInv_castOn | done].
  - constructor; [done | apply IH].
Qed.

(** [addVote] keeps the three conservation equations. *)
Lemma addVote_preserves_aggregateInv (p p' : Poll) (uid : ObjectId) (idx : Z)
      (now stamp : Date) :
  aggregateInv p → addVote p uid idx now stamp = Returned p' → aggregateInv p'.
Proof.
  intros (Htot & Huniq & Hopt) Hadd.
  destruct (addVote_returned _ _ _ _ _ _ Hadd) as (_ & Hidx & Hopts & Htv & Hvu & Huv & _).
  unfold aggregateInv. rewrite Hopts, Htv, Hvu, Huv.
  split; [rewrite sumVotes_alter_castOn by lia; lia |].
  split; [| by apply Forall_alter_castOn].
  case_bool_decide; [done |]. rewrite length_app; simpl. lia.
Qed.

Lemma preSave_aggregateInv (now : Date) (p : Poll) :
  aggregateInv p → aggregateInv (preSave now p).
Proof.
  unfold aggregateInv.
  by rewrite preSave_options, preSave_totalVotes, preSave_uniqueVoters, preSave_votedUsers.
Qed.

(** The cast half of conservation: whatever the handler answers, the
    poll it addressed satisfies the three equations afterwards if it did
    before. *)
Lemma castVote_preserves_aggregateInv (req : CastReq) (w : World) (p : Poll) :
  polls w !! req_pollId req = Some p → aggregateInv p →
  ∃ p', polls (castVote req w).2 !! req_pollId req = Some p' ∧ aggregateInv p'.
Proof.
  intros Hp Hinv.
  destruct (castVote_cases req w)
    as [(_ & E) | [(q & _ & _ & E) | [(q & _ & _ & _ & E)
       | [(q & msg & _ & _ & E) | (q & p' & o & Hq & _ & Hadd & _ & E)]]]];
    simpl in E; rewrite E; simpl; eauto.
  rewrite Hp in Hq. injection Hq as <-.
  exists (preSave (t_save req) p'). split.
  - unfold castWorld. destruct (negb _); simpl; apply lookup_insert_eq.
  - eapply preSave_aggregateInv, addVote_preserves_aggregateInv; eauto.
Qed.

Lemma sumVotes_alter (f : PollOption → PollOption) (os : list PollOption) (i : nat)
      (o : PollOption) :
  os !! i = Some o →
  sumVotes (alter f i os) = sumVotes os - votes o + votes (f o).
Proof.
  revert i. induction os as [| x os IH]; intros [| i] Hi; simpl in *; try done.
  - injection Hi as ->. lia.
  - fold (alter f i os). rewrite (IH _ Hi). lia.
Qed.

Lemma votes_le_sumVotes (os : list PollOption) (i : nat) (o : PollOption) :
  Forall optionInv os → os !! i = Some o → 0 <= votes o <= sumVotes os.
Proof.
  intros H. revert i. induction H as [| x os Hx Hos IH]; intros [| i] Hi; simpl in *;
    try done.
  - injection Hi as ->. unfold optionInv in Hx.
    assert (0 <= sumVotes os).
    { clear -Hos. induction Hos as [| y ys Hy _ IHs]; simpl; [lia |].
      unfold optionInv in Hy. lia. }
    lia.
  - specialize (IH _ Hi). unfold optionInv in Hx. lia.
Qed.

Lemma length_filter_complement {A} (P : A → Prop) `{!∀ x, Decision (P x)} (l : list A) :
  (length (filter P l) + length (filter (fun x => ¬ P x) l))%nat = length l.
Proof.
  rewrite <- length_app. apply Permutation_length, filter_app_complement.
Qed.

(** Where the retraction does keep the conservation equations: the
    option exists, the user has exactly one voter record in it, and - when
    this was the user's last vote - the user is listed once in
    [votedUsers]. *)
Lemma retractFrom_preserves_aggregateInv (p : Poll) (v : Vote) (n : nat) (o : PollOption) :
  aggregateInv p →
  0 <= optionIndex v →
  options p !! Z.to_nat (optionIndex v) = Some o →
  length (filter (fun x => userId x = vote_userId v) (voters o)) = 1%nat →
  (n = 0%nat →
   length (filter (fun u => u = vote_userId v) (votedUsers p)) = 1%nat) →
  aggregateInv (retractFrom p v n).
Proof.
  intros (Htot & Huniq & Hopt) Hidx Ho Hone Hlisted.
  pose proof (votes_le_sumVotes _ _ _ Hopt Ho) as Hle.
  pose proof (length_filter_complement (fun x => userId x = vote_userId v) (voters o))
    as Hsplit.
  simpl in Hsplit.
  assert (Hinv : optionInv o) by (eapply Forall_lookup_1; eauto).
  unfold optionInv in Hinv.
  assert (Hopt' : Forall optionInv
            (alter (retractOn (vote_userId v)) (Z.to_nat (optionIndex v)) (options p))).
  { apply Forall_lookup_2. intros j x Hx.
    destruct (decide (j = Z.to_nat (optionIndex v))) as [-> | Hne].
    - rewrite list_lookup_alter_eq, Ho in Hx. injection Hx as <-.
      unfold optionInv, retractOn; simpl. lia.
    - rewrite list_lookup_alter_ne in Hx by done. eapply Forall_lookup_1; eauto. }
  assert (Hsum : sumVotes (alter (retractOn (vote_userId v)) (Z.to_nat (optionIndex v))
                                 (options p))
                 = sumVotes (options p) - 1).
  { rewrite (sumVotes_alter _ _ _ _ Ho). unfold retractOn; simpl. lia. }
  unfold retractFrom. rewrite js_index_lookup, Ho by done.
  destruct p as [ti os sd ed st tv uv vu se]; simpl in *.
  case_bool_decide as Hn; unfold aggregateInv; simpl.
  - specialize (Hlisted Hn).
    pose proof (length_filter_complement (fun u => u = vote_userId v) vu) as Hvu.
    simpl in Hvu. repeat split; [lia | lia | done].
  - repeat split; [lia | done | done].
Qed.

(** C1 fails on the retraction path.  With a quota of two votes per user,
    Alice votes twice for "Red" (ledger entries "v1" and "v2"); the poll
    then satisfies the three conservation equations.  An administrator
    deletes "v1": the handler answers 200, lowers the counter of "Red"
    from 2 to 1, and filters out both of Alice's voter records, so the
    counter (1) no longer equals the number of voter records (0). *)
Theorem deleteVote_breaks_option_invariant :
  code (castVote cast1 (world0 2)).1 = 201
  ∧ code (castVote cast2 (castVote cast1 (world0 2)).2).1 = 201
  ∧ (∃ p, polls world2 !! "p1" = Some p ∧ aggregateInv p)
  ∧ code (deleteVote retract1 world2).1 = 200
  ∧ (∃ p, polls (deleteVote retract1 world2).2 !! "p1" = Some p
          ∧ options p = [mkOption "Red" 1 []; mkOption "Blue" 0 []]
          ∧ totalVotes p = 1
          ∧ ¬ aggregateInv p).
Proof.
  split; [vm_compute; reflexivity |]. split; [vm_compute; reflexivity |].
  split.
  { eexists. split; [vm_compute; reflexivity |].
    repeat split; try reflexivity. repeat constructor. }
  split; [vm_compute; reflexivity |].
  eexists. split; [vm_compute; reflexivity |].
  split; [reflexivity |]. split; [reflexivity |].
  intros (_ & _ & H). inversion H as [| o os Ho Hos]; subst.
  unfold optionInv in Ho. simpl in Ho. lia.
Qed.

(** ** The retraction handler *)

(** The handler on an existing vote whose poll exists. *)
Lemma deleteVote_on_poll (req : DeleteReq) (w : World) (v : Vote) (poll : Poll) :
  del_role req = admin →
  ledger w !! del_voteId req = Some v →
  polls w !! vote_pollId v = Some poll →
  deleteVote req w
  = let n := countOtherVotes (ledger w) (vote_pollId v) (vote_userId v) (del_voteId req) in
    let w1 := set_polls (<[vote_pollId v :=
                             preSave (del_t_save req) (retractFrom poll v n)]> (polls w)) w in
    if bool_decide (n = 0%nat)
    then (respond 500 "Server error deleting vote", w1)
    else (respond 200 "Vote deleted successfully",
          set_ledger (delete (del_voteId req) (ledger w)) w1).
Proof.
  intros Hrole Hv Hp. unfold deleteVote.
  rewrite Hrole, Hv, Hp. simpl. reflexivity.
Qed.

Lemma countOtherVotes_fresh (l : gmap ObjectId Vote) (pid uid vid : ObjectId) (v : Vote) :
  l !! vid = None →
  countOtherVotes (<[vid := v]> l) pid uid vid = countOtherVotes l pid uid vid.
Proof.
  intros Hfresh. unfold countOtherVotes.
  rewrite map_filter_insert_False by (simpl; tauto).
  by rewrite delete_id.
Qed.

Lemma countOtherVotes_zero (l : gmap ObjectId Vote) (pid uid vid : ObjectId) :
  l !! vid = None →
  countOtherVotes l pid uid vid = 0%nat ↔ ¬ hasLedgerVote l pid uid.
Proof.
  intros Hfresh. unfold countOtherVotes, hasLedgerVote.
  rewrite map_size_empty_iff, map_empty. split.
  - intros Hall (k & x & Hk & Hpid & Huid).
    specialize (Hall k). apply map_lookup_filter_None in Hall as [Hnone | Hnot].
    + congruence.
    + apply (Hnot x Hk). simpl. repeat split; auto. congruence.
  - intros Hno k. apply map_lookup_filter_None. right.
    intros x Hk (Hpid & Huid & _). apply Hno. eauto.
Qed.

Lemma map_votes_alter (f : PollOption → PollOption) (i : nat) (os : list PollOption) :
  Forall (fun o => votes (f o) = votes o) os →
  map votes (alter f i os) = map votes os.
Proof.
  intros H. revert i. induction H as [| o os Ho Hos IH]; intros [| i]; simpl; try done.
  - by rewrite Ho.
  - fold (alter f i os). by rewrite IH.
Qed.

Lemma filter_ne_snoc (u : ObjectId) (us : list ObjectId) :
  u ∉ us → filter (fun x => x ≠ u) (us ++ [u]) = us.
Proof.
  intros Hnotin. rewrite filter_app.
  rewrite filter_cons_False by (intros H; by apply H).
  rewrite filter_nil, app_nil_r.
  induction us as [| x us IH]; [done |].
  apply not_elem_of_cons in Hnotin as [Hne Hnotin].
  rewrite filter_cons_True by done. by rewrite IH.
Qed.

(** Retraction undoes a cast wherever the ledger agrees with the poll.
    For a poll whose counters respect the schema bound ([min: 0]) and
    whose [votedUsers] agrees with the ledger on the caster, and a new
    [_id] not yet in the ledger: a cast answered 201 raises [totalVotes]
    by one and stores the ledger entry under the new [_id]; the retraction
    of that entry finds it and writes the poll back (answering 200 when
    the caster had voted in the poll before, 500 otherwise), and
    afterwards every option's [votes] counter, [totalVotes],
    [uniqueVoters] and [votedUsers] (hence the caster's membership) are
    what they were before the cast. *)
Theorem retract_after_cast (req : CastReq) (t : Date) (w w' : World) (r : Response)
        (p : Poll) :
  polls w !! req_pollId req = Some p →
  countersNonneg p →
  ledger w !! new_voteId req = None →
  (req_userId req ∈ votedUsers p
   ↔ hasLedgerVote (ledger w) (req_pollId req) (req_userId req)) →
  castVote req w = (r, w') → code r = 201 →
  (∃ p' v,
     polls w' !! req_pollId req = Some p'
     ∧ totalVotes p' = totalVotes p + 1
     ∧ ledger w' !! new_voteId req = Some v
     ∧ vote_pollId v = req_pollId req
     ∧ vote_userId v = req_userId req
     ∧ optionIndex v = req_optionIndex req)
  ∧ code (deleteVote (mkDeleteReq (new_voteId req) admin t) w').1
    = (if bool_decide (req_userId req ∈ votedUsers p) then 200 else 500)
  ∧ ∃ p'',
      polls (deleteVote (mkDeleteReq (new_voteId req) admin t) w').2 !! req_pollId req
      = Some p''
      ∧ map votes (options p'') = map votes (options p)
      ∧ totalVotes p'' = totalVotes p
      ∧ uniqueVoters p'' = uniqueVoters p
      ∧ votedUsers p'' = votedUsers p.
Proof.
  intros Hp (Htv0 & Huv0 & Hvotes0) Hfresh HI3 Hrun Hcode.
  destruct (castVote_cases req w)
    as [(_ & E) | [(q & _ & _ & E) | [(q & _ & _ & _ & E)
       | [(q & msg & _ & _ & E) | (q & p' & o & Hq & _ & Hadd & Ho & E)]]]];
    simpl in E; rewrite E in Hrun; inversion Hrun; subst; try discriminate.
  clear Hrun Hcode E. rewrite Hp in Hq. injection Hq as <-.
  destruct (addVote_returned _ _ _ _ _ _ Hadd) as (_ & Hidx & Hopts & Htv & Hvu & Huv & _).
  set (v := mkVote (req_pollId req) (req_userId req) (req_optionIndex req)
                   (text o) (anonymousVoting (settings p')) (t_vote req)).
  set (w' := castWorld req (preSave (t_save req) p') v w).
  assert (Hl : ledger w' = <[new_voteId req := v]> (ledger w)).
  { unfold w', castWorld. by destruct (negb _). }
  assert (Hps : polls w' = <[req_pollId req := preSave (t_save req) p']> (polls w)).
  { unfold w', castWorld. by destruct (negb _). }
  split.
  { exists (preSave (t_save req) p'), v.
    rewrite Hps, Hl, !lookup_insert_eq, preSave_totalVotes. done. }
  rewrite (deleteVote_on_poll _ w' v (preSave (t_save req) p'));
    [| done | simpl; rewrite Hl; apply lookup_insert_eq
     | simpl; rewrite Hps; apply lookup_insert_eq ].
  cbv zeta. simpl del_voteId. simpl del_t_save.
  change (vote_pollId v) with (req_pollId req).
  change (vote_userId v) with (req_userId req).
  rewrite Hl, countOtherVotes_fresh by done.
  set (n := countOtherVotes (ledger w) (req_pollId req) (req_userId req) (new_voteId req)).
  assert (Hn : n = 0%nat ↔ req_userId req ∉ votedUsers p).
  { unfold n. rewrite (countOtherVotes_zero _ _ _ _ Hfresh). by rewrite HI3. }
  split.
  { destruct (decide (n = 0%nat)) as [Hz | Hnz].
    - rewrite (bool_decide_eq_true_2 _ Hz). simpl.
      by rewrite bool_decide_eq_false_2 by (by apply Hn).
    - rewrite (bool_decide_eq_false_2 _ Hnz). simpl.
      rewrite bool_decide_eq_true_2; [done |].
      destruct (decide (req_userId req ∈ votedUsers p)) as [| Hout]; [done |].
      by apply Hn in Hout. }
  exists (preSave t (retractFrom (preSave (t_save req) p') v n)).
  split.
  { destruct (bool_decide (n = 0%nat)); simpl; apply lookup_insert_eq. }
  rewrite preSave_options, preSave_totalVotes, preSave_uniqueVoters, preSave_votedUsers.
  assert (Hin : is_Some (js_index (options (preSave (t_save req) p')) (optionIndex v))).
  { apply js_index_in_range. rewrite preSave_options, Hopts, length_alter. done. }
  destruct Hin as [o' Ho'].
  unfold retractFrom. rewrite Ho'. simpl optionIndex. simpl vote_userId.
  assert (Hmap : map votes
            (alter (retractOn (req_userId req)) (Z.to_nat (req_optionIndex req))
                   (options (preSave (t_save req) p')))
          = map votes (options p)).
  { rewrite preSave_options, Hopts, list_alter_alter_eq.
    apply map_votes_alter. eapply Forall_impl; [exact Hvotes0 |].
    intros x Hx. unfold compose, retractOn, castOn. simpl in *. lia. }
  assert (Htot : Z.max 0 (totalVotes (preSave (t_save req) p') - 1) = totalVotes p).
  { rewrite preSave_totalVotes, Htv. lia. }
  destruct (decide (n = 0%nat)) as [Hz | Hnz];
    [rewrite bool_decide_eq_true_2 by done | rewrite bool_decide_eq_false_2 by done];
    simpl.
  - assert (Hnotin : req_userId req ∉ votedUsers p) by (by apply Hn).
    rewrite bool_decide_eq_false_2 in Hvu, Huv by done.
    rewrite preSave_uniqueVoters, preSave_votedUsers, Hvu, Huv.
    repeat split; [done | done | lia | by apply filter_ne_snoc].
  - assert (Hin : req_userId req ∈ votedUsers p).
    { destruct (decide (req_userId req ∈ votedUsers p)) as [| Hout]; [done |].
      by apply Hn in Hout. }
    rewrite bool_decide_eq_true_2 in Hvu, Huv by done.
    rewrite preSave_uniqueVoters, preSave_votedUsers, Hvu, Huv.
    repeat split; done.
Qed.

(** Alice's first vote on the sample poll, then its retraction. *)
Lemma retract_after_cast_witness :
  code (deleteVote (mkDeleteReq "v1" admin 130) (castVote cast1 (world0 2)).2).1 = 500
  ∧ ∃ p'',
      polls (deleteVote (mkDeleteReq "v1" admin 130) (castVote cast1 (world0 2)).2).2 !! "p1"
      = Some p''
      ∧ map votes (options p'') = map votes (options (colours 2))
      ∧ totalVotes p'' = totalVotes (colours 2)
      ∧ uniqueVoters p'' = uniqueVoters (colours 2)
      ∧ votedUsers p'' = votedUsers (colours 2).
Proof.
  apply (retract_after_cast cast1 130 (world0 2) (castVote cast1 (world0 2)).2
                            (castVote cast1 (world0 2)).1 (colours 2)).
  - vm_compute. reflexivity.
  - unfold countersNonneg. simpl. repeat split; try lia. repeat constructor; simpl; lia.
  - vm_compute. reflexivity.
  - simpl. split.
    + intros H. inversion H.
    + intros (k & x & Hk & _). rewrite lookup_empty in Hk. discriminate.
  - vm_compute. reflexivity.
  - vm_compute. reflexivity.
Defined.

(** C5, at a state the handlers reach.  On the sample poll, Alice casts
    her only vote "v1" (201) and an administrator retracts it: the poll is
    saved with all counters back at zero, the handler then fails (500)
    and the entry "v1" stays in the ledger.  From that state S Alice casts
    again (201, entry "v3" stored, counters at one) and "v3" is retracted
    (200, entry deleted): the option counters and [totalVotes] are back at
    their values in S, but [uniqueVoters] stays at 1 and Alice stays in
    [votedUsers], where S had 0 and nobody. *)
Lemma retract_after_cast_stale_ledger :
  code (castVote cast1 (world0 1)).1 = 201
  ∧ code (deleteVote (mkDeleteReq "v1" admin 130) (castVote cast1 (world0 1)).2).1 = 500
  ∧ worldAfterFailedDelete
    = (deleteVote (mkDeleteReq "v1" admin 130) (castVote cast1 (world0 1)).2).2
  ∧ (map votes ∘ options) <$> polls worldAfterFailedDelete !! "p1" = Some [0; 0]
  ∧ totalVotes <$> polls worldAfterFailedDelete !! "p1" = Some 0
  ∧ uniqueVoters <$> polls worldAfterFailedDelete !! "p1" = Some 0
  ∧ votedUsers <$> polls worldAfterFailedDelete !! "p1" = Some []
  ∧ is_Some (ledger worldAfterFailedDelete !! "v1")
  ∧ ledger worldAfterFailedDelete !! "v3" = None
  ∧ code (castVote castAgain worldAfterFailedDelete).1 = 201
  ∧ ledger (castVote castAgain worldAfterFailedDelete).2 !! "v3"
    = Some (mkVote "p1" "u1" 0 "Red" false 140)
  ∧ (map votes ∘ options) <$> polls (castVote castAgain worldAfterFailedDelete).2 !! "p1"
    = Some [1; 0]
  ∧ totalVotes <$> polls (castVote castAgain worldAfterFailedDelete).2 !! "p1" = Some 1
  ∧ uniqueVoters <$> polls (castVote castAgain worldAfterFailedDelete).2 !! "p1" = Some 1
  ∧ votedUsers <$> polls (castVote castAgain worldAfterFailedDelete).2 !! "p1"
    = Some ["u1"]
  ∧ code (deleteVote (mkDeleteReq "v3" admin 150)
            (castVote castAgain worldAfterFailedDelete).2).1 = 200
  ∧ ledger (deleteVote (mkDeleteReq "v3" admin 150)
              (castVote castAgain worldAfterFailedDelete).2).2 !! "v3" = None
  ∧ (map votes ∘ options) <$> polls (deleteVote (mkDeleteReq "v3" admin 150)
                                       (castVote castAgain worldAfterFailedDelete).2).2
                               !! "p1" = Some [0; 0]
  ∧ totalVotes <$> polls (deleteVote (mkDeleteReq "v3" admin 150)
                            (castVote castAgain worldAfterFailedDelete).2).2 !! "p1"
    = Some 0
  ∧ uniqueVoters <$> polls (deleteVote (mkDeleteReq "v3" admin 150)
                              (castVote castAgain worldAfterFailedDelete).2).2 !! "p1"
    = Some 1
  ∧ votedUsers <$> polls (deleteVote (mkDeleteReq "v3" admin 150)
                            (castVote castAgain worldAfterFailedDelete).2).2 !! "p1"
    = Some ["u1"].
Proof. repeat split; vm_compute; eauto. Qed.






(** The retraction of a user's only vote in a poll: the poll is written
    back with the vote removed from its counters, the answer is 500, and
    the ledger entry is still there. *)
Lemma deleteVote_last_vote_keeps_ledger_entry :
  code (deleteVote (mkDeleteReq "v1" admin 130) (castVote cast1 (world0 2)).2).1 = 500
  ∧ totalVotes <$> polls (deleteVote (mkDeleteReq "v1" admin 130)
                            (castVote cast1 (world0 2)).2).2 !! "p1" = Some 0
  ∧ is_Some (ledger (deleteVote (mkDeleteReq "v1" admin 130)
                       (castVote cast1 (world0 2)).2).2 !! "v1").
Proof. repeat split; vm_compute; eauto. Qed.

(** ** Results *)

(** What [toFixed(2)] prints is the nearest hundredth of the double. *)
Lemma toFixed2_nearest (x : float) (s : string) :
  toFixed2 x = Some s →
  ∃ n, nearestHundredth x n ∧ s = signText x +:+ hundredths n.
Proof.
  unfold toFixed2, nearestHundredth, magnitude, signText.
  destruct (Prim2SF x) as [sg | sg | | sg m e]; try discriminate.
  - intros [= <-]. exists 0. split; [| reflexivity].
    exists 0, 1. repeat split; lia.
  - set (num := Z.pos m * 2 ^ Z.max 0 e). set (den := 2 ^ Z.max 0 (- e)).
    assert (Hden : 0 < den) by (apply Z.pow_pos_nonneg; lia).
    destruct (num >=? 10 ^ 21 * den); [discriminate |].
    intros [= <-]. exists ((200 * num + den) / (2 * den)).
    split; [| by destruct sg].
    exists num, den. split; [done |]. split; [done |].
    pose proof (Z.div_mod (200 * num + den) (2 * den) ltac:(lia)) as Hdm.
    pose proof (Z.mod_pos_bound (200 * num + den) (2 * den) ltac:(lia)) as Hmod.
    lia.
Qed.

Lemma percentageOf_no_votes (v total : Z) : total <= 0 → percentageOf v total = PctNumber 0.
Proof.
  intros Hle. unfold percentageOf.
  destruct (total >? 0) eqn:E; [| done]. apply Z.gtb_gt in E. lia.
Qed.

(** Inside the range of [toFixed] the string is printed; outside it the
    double is handed to [ToString]. *)
Lemma percentageOf_votes (v total : Z) :
  0 < total →
  (toFixedPrints (ratioTimes100 v total) →
   ∃ n, nearestHundredth (ratioTimes100 v total) n
        ∧ percentageOf v total
          = PctString (signText (ratioTimes100 v total) +:+ hundredths n))
  ∧ (¬ toFixedPrints (ratioTimes100 v total) →
     percentageOf v total = PctToString (ratioTimes100 v total)).
Proof.
  intros Hpos. unfold percentageOf. rewrite (proj2 (Z.gtb_gt _ _)) by lia.
  fold (ratioTimes100 v total).
  destruct (toFixed2 (ratioTimes100 v total)) as [s |] eqn:E.
  - split.
    + intros _. destruct (toFixed2_nearest _ _ E) as (n & Hn & ->). eauto.
    + intros Hout. destruct Hout. revert E.
      unfold toFixed2, toFixedPrints, magnitude.
      destruct (Prim2SF (ratioTimes100 v total)) as [sg | sg | | sg m e]; try discriminate.
      * intros _. exists 0, 1. split; [done | lia].
      * destruct (Z.pos m * 2 ^ Z.max 0 e >=? 10 ^ 21 * 2 ^ Z.max 0 (- e)) eqn:Ege;
          [discriminate |].
        intros _. eexists _, _. split; [done |].
        rewrite Z.geb_leb in Ege. apply Z.leb_gt in Ege. exact Ege.
  - split; [| done].
    intros (num & den & Hmag & Hlt). revert E Hmag.
    unfold toFixed2, magnitude.
    destruct (Prim2SF (ratioTimes100 v total)) as [sg | sg | | sg m e]; try discriminate.
    destruct (Z.pos m * 2 ^ Z.max 0 e >=? 10 ^ 21 * 2 ^ Z.max 0 (- e)) eqn:Ege;
      [| discriminate].
    intros _ [= <- <-]. rewrite Z.geb_leb in Ege. apply Z.leb_le in Ege. lia.
Qed.

(** ** Counters in the safe-integer range *)

Lemma digits2_pos_lower (p : positive) : 2 ^ (Z.pos (digits2_pos p) - 1) <= Z.pos p.
Proof.
  induction p as [p IH | p IH |]; simpl digits2_pos.
  - rewrite Pos2Z.inj_succ.
    replace (Z.succ (Z.pos (digits2_pos p)) - 1) with (Z.succ (Z.pos (digits2_pos p) - 1)) by lia.
    rewrite Z.pow_succ_r by lia. lia.
  - rewrite Pos2Z.inj_succ.
    replace (Z.succ (Z.pos (digits2_pos p)) - 1) with (Z.succ (Z.pos (digits2_pos p) - 1)) by lia.
    rewrite Z.pow_succ_r by lia. lia.
  - simpl. lia.
Qed.

Lemma Zdigits2_le (m j : Z) : 0 <= m < 2 ^ j → 0 <= j → Zdigits2 m <= j.
Proof.
  intros [H0 Hm] Hj. destruct m as [| p | p]; simpl; [lia | | lia].
  pose proof (digits2_pos_lower p) as Hlow.
  destruct (Z_le_gt_dec (Z.pos (digits2_pos p)) j) as [| Hgt]; [done |].
  assert (2 ^ j <= 2 ^ (Z.pos (digits2_pos p) - 1)) by (apply Z.pow_le_mono_r; lia).
  lia.
Qed.

Lemma shr_1_m (mrs : shr_record) :
  0 <= shr_m mrs → shr_m (shr_1 mrs) = shr_m mrs / 2.
Proof.
  destruct mrs as [m r s]. simpl. intros Hm.
  destruct m as [| [p | p |] | p]; simpl.
  all: try lia;
    first [ apply (Z.div_unique _ _ _ 0); lia | apply (Z.div_unique _ _ _ 1); lia ].
Qed.

Lemma iter_shr_1_m (p : positive) :
  ∀ mrs, 0 <= shr_m mrs → shr_m (SpecFloat.iter_pos shr_1 p mrs) = shr_m mrs / 2 ^ Z.pos p.
Proof.
  induction p as [p IH | p IH |]; intros mrs Hm; simpl SpecFloat.iter_pos.
  - assert (H1 : 0 <= shr_m (shr_1 mrs)) by (rewrite shr_1_m by done; apply Z.div_pos; lia).
    assert (H2 : 0 <= shr_m (SpecFloat.iter_pos shr_1 p (shr_1 mrs)))
      by (rewrite IH by done; apply Z.div_pos; lia).
    rewrite IH, IH, shr_1_m by done.
    rewrite !Z.div_div by lia.
    f_equal. rewrite Pos2Z.inj_xI.
    rewrite <- Z.pow_add_r by lia. rewrite <- Z.pow_succ_r by lia. f_equal. lia.
  - assert (H2 : 0 <= shr_m (SpecFloat.iter_pos shr_1 p mrs))
      by (rewrite IH by done; apply Z.div_pos; lia).
    rewrite IH, IH by done.
    rewrite !Z.div_div by lia.
    f_equal. rewrite Pos2Z.inj_xO.
    rewrite <- Z.pow_add_r by lia. f_equal. lia.
  - by rewrite shr_1_m.
Qed.

Lemma shr_record_of_loc_m (m : Z) (l : location) : shr_m (shr_record_of_loc m l) = m.
Proof. by destruct l as [| []]. Qed.

(** A right shift to the format keeps a mantissa below its bound. *)
Lemma shr_fexp_within (k m e : Z) (l : location) :
  0 <= m < 2 ^ (k - e) → e <= k → emin <= k →
  0 <= shr_m (shr_fexp prec emax m e l).1 < 2 ^ (k - (shr_fexp prec emax m e l).2)
  ∧ (shr_fexp prec emax m e l).2 <= k.
Proof.
  intros Hm He Hk. unfold shr_fexp, shr.
  pose proof (Zdigits2_le m (k - e) Hm ltac:(lia)) as Hd.
  destruct (fexp prec emax (Zdigits2 m + e) - e) as [| n | n] eqn:En; simpl;
    rewrite ?shr_record_of_loc_m; try (split; [done | lia]).
  assert (Hfexp : fexp prec emax (Zdigits2 m + e) <= k).
  { unfold fexp, SpecFloat.emin in *. unfold prec, emax in *. lia. }
  rewrite iter_shr_1_m by (rewrite shr_record_of_loc_m; lia).
  rewrite shr_record_of_loc_m.
  split; [| lia]. split; [apply Z.div_pos; lia |].
  apply Z.div_lt_upper_bound; [lia |].
  rewrite <- Z.pow_add_r by lia.
  replace (Z.pos n + (k - (e + Z.pos n))) with (k - e) by lia. lia.
Qed.

Lemma round_nearest_even_within (m : Z) (l : location) :
  0 <= m → m <= round_nearest_even m l <= m + 1.
Proof. intros Hm. destruct l as [| []]; simpl; try lia. destruct (Z.even m); lia. Qed.

(** Rounding to the format raises the bound by at most one binary digit
    and, far from the overflow threshold, gives a finite number. *)
Lemma binary_round_aux_within (k m e : Z) (l : location) :
  0 <= m < 2 ^ (k - e) → e <= k → emin <= k → k + 1 <= emax - prec →
  sfWithin (k + 1) (binary_round_aux prec emax false m e l).
Proof.
  intros Hm He Hk Hmax. unfold binary_round_aux.
  pose proof (shr_fexp_within k m e l Hm He Hk) as H1.
  destruct (shr_fexp prec emax m e l) as [mrs' e'] eqn:E1. simpl in H1.
  destruct H1 as [Hm' He'].
  pose proof (round_nearest_even_within (shr_m mrs') (loc_of_shr_record mrs') ltac:(lia)) as Hr.
  set (mr := round_nearest_even (shr_m mrs') (loc_of_shr_record mrs')) in *.
  assert (Hmr : 0 <= mr < 2 ^ (k + 1 - e')).
  { replace (k + 1 - e') with (Z.succ (k - e')) by lia.
    rewrite Z.pow_succ_r by lia. lia. }
  pose proof (shr_fexp_within (k + 1) mr e' loc_Exact Hmr ltac:(lia) ltac:(lia)) as H2.
  destruct (shr_fexp prec emax mr e' loc_Exact) as [mrs'' e''] eqn:E2. simpl in H2.
  destruct H2 as [Hm'' He''].
  destruct (shr_m mrs'') as [| p | p] eqn:Ep; simpl; [done | | lia].
  rewrite (proj2 (Z.leb_le _ _)) by lia. simpl. repeat split; lia.
Qed.

Lemma iter_xO_value (p q : positive) : Z.pos (Pos.iter xO p q) = Z.pos p * 2 ^ Z.pos q.
Proof.
  induction q as [| q IH] using Pos.peano_ind.
  - simpl. lia.
  - rewrite Pos.iter_succ, Pos2Z.inj_xO, IH, Pos2Z.inj_succ, Z.pow_succ_r by lia. lia.
Qed.

Lemma iter_xO_digits (p q : positive) :
  Z.pos (digits2_pos (Pos.iter xO p q)) = Z.pos (digits2_pos p) + Z.pos q.
Proof.
  induction q as [| q IH] using Pos.peano_ind.
  - simpl. lia.
  - rewrite Pos.iter_succ. simpl digits2_pos. rewrite !Pos2Z.inj_succ, IH. lia.
Qed.

(** A positive integer below 2^53 is a double as it stands: the
    mantissa is the integer shifted to 53 binary digits. *)
Lemma number_of_Z_safe (v : Z) :
  0 < v < 2 ^ 53 →
  ∃ m e, Prim2SF (number_of_Z v) = S754_finite false m e
         ∧ -52 <= e <= 0 ∧ Z.pos m = v * 2 ^ (- e).
Proof.
  intros [Hpos Hlt]. destruct v as [| p | p]; try lia.
  pose proof (Zdigits2_le (Z.pos p) 53 ltac:(lia) ltac:(lia)) as Hd. simpl in Hd.
  set (d := Z.pos (digits2_pos p)) in *.
  assert (Hd1 : 1 <= d) by (unfold d; lia).
  assert (Hnorm : binary_normalize prec emax (Z.pos p) 0 false
                  = S754_finite false
                      (match (d - 53)%Z with Z.neg q => Pos.iter xO p q | _ => p end) (d - 53)).
  { unfold binary_normalize, binary_round.
    assert (Hf : fexp prec emax (Z.pos (digits2_pos p) + 0) = d - 53).
    { unfold fexp, SpecFloat.emin, prec, emax. fold d. lia. }
    rewrite Hf. unfold shl_align.
    replace (d - 53 - 0) with (d - 53) by lia.
    destruct (d - 53) as [| q | q] eqn:Eq; try lia.
    - (* d = 53 *)
      unfold binary_round_aux, shr_fexp. simpl Zdigits2. fold d.
      replace (fexp prec emax (d + 0) - 0) with 0
        by (unfold fexp, SpecFloat.emin, prec, emax; lia).
      simpl. fold d.
      replace (fexp prec emax (d + 0) - 0) with 0
        by (unfold fexp, SpecFloat.emin, prec, emax; lia).
      simpl. reflexivity.
    - unfold binary_round_aux, shr_fexp. simpl Zdigits2.
      rewrite iter_xO_digits. fold d.
      replace (fexp prec emax (d + Z.pos q + Z.neg q) - Z.neg q) with 0
        by (unfold fexp, SpecFloat.emin, prec, emax; lia).
      simpl. rewrite iter_xO_digits. fold d.
      replace (fexp prec emax (d + Z.pos q + Z.neg q) - Z.neg q) with 0
        by (unfold fexp, SpecFloat.emin, prec, emax; lia).
      simpl. reflexivity. }
  unfold number_of_Z. rewrite Hnorm.
  eexists _, _. split; [| split].
  - apply Prim2SF_SF2Prim. simpl. unfold bounded, canonical_mantissa.
    apply andb_true_intro. split; [apply Z.eqb_eq | apply Z.leb_le; unfold prec, emax; lia].
    destruct (d - 53) as [| q | q] eqn:Eq; try lia.
    + fold d. unfold fexp, SpecFloat.emin, prec, emax. lia.
    + rewrite iter_xO_digits. fold d. unfold fexp, SpecFloat.emin, prec, emax. lia.
  - lia.
  - destruct (d - 53) as [| q | q] eqn:Eq; try lia.
    rewrite iter_xO_value. simpl. reflexivity.
Qed.

Lemma number_of_Z_zero : Prim2SF (number_of_Z 0) = S754_zero false.
Proof. reflexivity. Qed.

Lemma number_of_Z_hundred :
  Prim2SF (number_of_Z 100) = S754_finite false 7036874417766400 (-46).
Proof. vm_compute. reflexivity. Qed.

(** The quotient of a safe integer by a positive safe integer is a
    finite double below 2^54. *)
Lemma div_within (v total : Z) :
  0 <= v < 2 ^ 53 → 0 < total < 2 ^ 53 →
  sfWithin 54 (Prim2SF (number_of_Z v / number_of_Z total)%float).
Proof.
  intros Hv Ht. rewrite FloatAxioms.div_spec. unfold SF64div.
  destruct (number_of_Z_safe total Ht) as (mb & eb & -> & Heb & Hmb).
  destruct (decide (v = 0)) as [-> | Hv0].
  { rewrite number_of_Z_zero. simpl. done. }
  destruct (number_of_Z_safe v ltac:(lia)) as (ma & ea & -> & Hea & Hma).
  unfold SFdiv, SFdiv_core_binary.
  set (e' := Z.min (fexp prec emax (Zdigits2 (Z.pos ma) + ea - (Zdigits2 (Z.pos mb) + eb)))
                   (ea - eb)).
  set (s := ea - eb - e').
  assert (Hs : 0 <= s) by (unfold s, e'; lia).
  set (m' := match s with Z.pos _ => Z.shiftl (Z.pos ma) s | 0 => Z.pos ma | Z.neg _ => 0 end).
  assert (Hm' : m' = Z.pos ma * 2 ^ s).
  { unfold m'. destruct s as [| n | n] eqn:Es; try lia.
    by rewrite Z.shiftl_mul_pow2 by lia. }
  destruct (Z.div_eucl m' (Z.pos mb)) as [q r] eqn:Ediv.
  assert (Hq : q = m' / Z.pos mb) by (unfold Z.div; by rewrite Ediv).
  simpl xorb.
  change 54 with (53 + 1).
  assert (Hpow_b : 2 ^ (- eb) <= Z.pos mb).
  { rewrite Hmb. pose proof (Z.pow_pos_nonneg 2 (- eb) ltac:(lia) ltac:(lia)). nia. }
  assert (Hpow_a : Z.pos ma < 2 ^ (53 - ea)).
  { rewrite Hma. replace (53 - ea) with (53 + - ea) by lia.
    rewrite Z.pow_add_r by lia.
    pose proof (Z.pow_pos_nonneg 2 (- ea) ltac:(lia) ltac:(lia)). nia. }
  assert (He' : e' <= 53) by (unfold e'; lia).
  apply binary_round_aux_within; [| done | unfold SpecFloat.emin, prec, emax; lia
                                  | unfold prec, emax; lia].
  rewrite Hq. split; [apply Z.div_pos; lia |].
  apply Z.div_lt_upper_bound; [lia |].
  assert (Hlt : m' < 2 ^ (- eb) * 2 ^ (53 - e')).
  { rewrite <- Z.pow_add_r by lia.
    replace (- eb + (53 - e')) with (53 - ea + s) by (unfold s; lia).
    rewrite Z.pow_add_r, Hm' by lia.
    pose proof (Z.pow_pos_nonneg 2 s ltac:(lia) Hs). nia. }
  pose proof (Z.pow_pos_nonneg 2 (53 - e') ltac:(lia) ltac:(lia)). nia.
Qed.

(** The double the source computes from safe counters is finite, not
    negative, and below 2^62. *)
Lemma ratio_within (v total : Z) :
  0 <= v < 2 ^ 53 → 0 < total < 2 ^ 53 →
  sfWithin 62 (Prim2SF (number_of_Z v / number_of_Z total * number_of_Z 100)%float).
Proof.
  intros Hv Ht. pose proof (div_within v total Hv Ht) as Hdiv.
  rewrite FloatAxioms.mul_spec, number_of_Z_hundred. unfold SF64mul.
  destruct (Prim2SF (number_of_Z v / number_of_Z total)%float) as [sg | sg | | sg m e];
    simpl in Hdiv; try done.
  destruct Hdiv as (-> & He & Hm). unfold SFmul. simpl xorb.
  change 62 with (61 + 1).
  apply binary_round_aux_within; [| lia | unfold SpecFloat.emin, prec, emax; lia
                                  | unfold prec, emax; lia].
  split; [lia |]. rewrite Pos2Z.inj_mul.
  replace (61 - (e + -46)) with ((54 - e) + 53) by lia.
  rewrite Z.pow_add_r by lia.
  assert (Z.pos 7036874417766400 < 2 ^ 53) by (vm_compute; reflexivity).
  pose proof (Z.pow_pos_nonneg 2 (54 - e) ltac:(lia) ltac:(lia)). nia.
Qed.

(** For counters in the safe-integer range [toFixed] always prints, and
    prints no sign. *)
Lemma ratioTimes100_prints (v total : Z) :
  0 <= v < 2 ^ 53 → 0 < total < 2 ^ 53 →
  toFixedPrints (ratioTimes100 v total) ∧ signText (ratioTimes100 v total) = "".
Proof.
  intros Hv Ht. pose proof (ratio_within v total Hv Ht) as Hin.
  unfold toFixedPrints, magnitude, signText, ratioTimes100.
  destruct (Prim2SF (number_of_Z v / number_of_Z total * number_of_Z 100)%float)
    as [sg | sg | | sg m e]; simpl in Hin; try done.
  - split; [| done]. exists 0, 1. split; [done | lia].
  - destruct Hin as (-> & He & Hm). split; [| done].
    eexists _, _. split; [done |].
    assert (H62 : 2 ^ 62 < 10 ^ 21) by (vm_compute; reflexivity).
    destruct (Z_le_gt_dec 0 e) as [Hpos | Hneg].
    + rewrite Z.max_r, Z.max_l by lia. simpl (2 ^ 0).
      assert (Z.pos m * 2 ^ e < 2 ^ 62); [| lia].
      replace 62 with ((62 - e) + e) at 1 by lia.
      rewrite Z.pow_add_r by lia.
      pose proof (Z.pow_pos_nonneg 2 e ltac:(lia) Hpos). nia.
    + rewrite Z.max_l, Z.max_r by lia. simpl (2 ^ 0).
      replace (62 - e) with (62 + - e) in Hm by lia.
      rewrite Z.pow_add_r in Hm by lia.
      pose proof (Z.pow_pos_nonneg 2 (- e) ltac:(lia) ltac:(lia)). nia.
Qed.

(** C8, as the code has it: [getResults] reports the poll's [totalVotes]
    and [uniqueVoters] and, option by option and in order, its text, its
    [votes] and a percentage.  When [totalVotes] is not positive every
    percentage is the number 0.  When it is positive, the percentage is
    [toFixed(2)] of the double [(votes / totalVotes) * 100]: wherever that
    double is finite and below 10^21 it is the string of the nearest
    hundredth of the double (upward on a tie) with two decimals, and only
    elsewhere the double is handed to [ToString]; for counters in the
    safe-integer range ([0 <= votes < 2^53], [totalVotes < 2^53]) it is
    always that string, without a sign.  It is the double that is rounded,
    not the exact quotient: 619903365296 votes of 637531100217 print as
    "97.23", where the exact quotient, which is not on a tie, rounds to
    97.24.  On the poll with A at 3 votes and B at 1 vote the result is
    [totalVotes = 4], "75.00" and "25.00". *)
Theorem getResults_percentages (pid : ObjectId) (p : Poll) (now : Date) :
  res_totalVotes (getResults pid p now) = totalVotes p
  ∧ res_uniqueVoters (getResults pid p now) = uniqueVoters p
  ∧ map res_text (results (getResults pid p now)) = map text (options p)
  ∧ map res_votes (results (getResults pid p now)) = map votes (options p)
  ∧ (totalVotes p <= 0 →
     Forall (fun r => percentage r = PctNumber 0) (results (getResults pid p now)))
  ∧ (0 < totalVotes p →
     Forall (fun r =>
               (toFixedPrints (ratioTimes100 (res_votes r) (totalVotes p)) →
                ∃ n, nearestHundredth (ratioTimes100 (res_votes r) (totalVotes p)) n
                     ∧ percentage r
                       = PctString (signText (ratioTimes100 (res_votes r) (totalVotes p))
                                    +:+ hundredths n))
               ∧ (¬ toFixedPrints (ratioTimes100 (res_votes r) (totalVotes p)) →
                  percentage r = PctToString (ratioTimes100 (res_votes r) (totalVotes p)))
               ∧ (0 <= res_votes r < 2 ^ 53 → totalVotes p < 2 ^ 53 →
                  ∃ n, nearestHundredth (ratioTimes100 (res_votes r) (totalVotes p)) n
                       ∧ percentage r = PctString (hundredths n)))
            (results (getResults pid p now)))
  ∧ results (getResults pid pollOffTie now)
    = [mkOptionResult "X" 619903365296 (PctString "97.23");
       mkOptionResult "Y" 17627734921 (PctString "2.76")]
  ∧ (∀ rule, spec_percentage rule 619903365296 637531100217 = PctString "97.24")
  ∧ 2 * ((10000 * 619903365296) mod 637531100217) ≠ 637531100217
  ∧ res_totalVotes (getResults pid pollAB now) = 4
  ∧ results (getResults pid pollAB now)
    = [mkOptionResult "A" 3 (PctString "75.00"); mkOptionResult "B" 1 (PctString "25.00")].
Proof.
  unfold getResults; simpl.
  split; [done |]. split; [done |].
  split; [by rewrite map_map |]. split; [by rewrite map_map |].
  split; [| split; [| split; [| split; [| split; [| split]]]]].
  - intros Hle. apply Forall_map, Forall_forall. intros o _. simpl.
    by apply percentageOf_no_votes.
  - intros Hpos. apply Forall_map, Forall_forall. intros o _. simpl.
    destruct (percentageOf_votes (votes o) (totalVotes p) Hpos) as [Hin Hout].
    split; [done |]. split; [done |].
    intros Hv Ht.
    destruct (ratioTimes100_prints (votes o) (totalVotes p) Hv ltac:(lia)) as [Hprints Hsign].
    destruct (Hin Hprints) as (n & Hn & Hpct). exists n. split; [done |].
    by rewrite Hpct, Hsign.
  - vm_compute. reflexivity.
  - intros []; vm_compute; reflexivity.
  - vm_compute. discriminate.
  - reflexivity.
  - vm_compute. reflexivity.
Qed.

(** A poll without votes, and a poll with votes. *)
Lemma getResults_percentages_witness :
  Forall (fun r => percentage r = PctNumber 0) (results (getResults "p1" (colours 1) 150))
  ∧ Forall (fun r => ∃ n, nearestHundredth (ratioTimes100 (res_votes r) 4) n
                          ∧ percentage r = PctString (hundredths n))
           (results (getResults "p2" pollAB 150)).
Proof.
  split.
  - apply (getResults_percentages "p1" (colours 1) 150). simpl. lia.
  - assert (Hsafe : Forall (fun r => 0 <= res_votes r < 2 ^ 53)
                           (results (getResults "p2" pollAB 150)))
      by (repeat constructor; simpl; lia).
    destruct (getResults_percentages "p2" pollAB 150) as (_ & _ & _ & _ & _ & Hpct & _).
    specialize (Hpct ltac:(simpl; lia)).
    eapply Forall_impl; [apply Forall_and; split; [exact Hpct | exact Hsafe] |].
    intros r [(_ & _ & Hr) Hv]. apply Hr; [exact Hv | simpl; lia].
Defined.

(** C8 as stated fails in three ways.  What is rounded to two decimals
    is the double, not the quotient: 619903365296 votes of 637531100217
    (just above 97.235, not a tie) print as "97.23", where the quotient
    rounds to 97.24 under every treatment of ties.  A quotient that falls
    exactly on a tie is not rounded by any fixed rule: 201 votes of 20000
    (exactly 1.005) print as "1.00", where rounding the tie up (or to odd)
    gives "1.01", while 1 vote of 800 (exactly 0.125) prints as "0.13",
    where rounding the tie down (or to even) gives "0.12".  And on a poll
    without votes the percentage is the number 0, not the string "0". *)
Lemma percentage_not_the_rounded_quotient :
  percentage <$> results (getResults "p" pollOffTie 5) !! 0%nat = Some (PctString "97.23")
  ∧ spec_percentage HalfUp 619903365296 637531100217 = PctString "97.24"
  ∧ spec_percentage HalfDown 619903365296 637531100217 = PctString "97.24"
  ∧ spec_percentage HalfEven 619903365296 637531100217 = PctString "97.24"
  ∧ spec_percentage HalfOdd 619903365296 637531100217 = PctString "97.24"
  ∧ percentage <$> results (getResults "p" pollTieA 5) !! 0%nat = Some (PctString "1.00")
  ∧ spec_percentage HalfUp 201 20000 = PctString "1.01"
  ∧ spec_percentage HalfOdd 201 20000 = PctString "1.01"
  ∧ percentage <$> results (getResults "p" pollTieB 5) !! 0%nat = Some (PctString "0.13")
  ∧ spec_percentage HalfDown 1 800 = PctString "0.12"
  ∧ spec_percentage HalfEven 1 800 = PctString "0.12"
  ∧ percentage <$> results (getResults "p" (colours 1) 5) !! 0%nat = Some (PctNumber 0)
  ∧ PctNumber 0 <> PctString "0".
Proof. repeat split; try (vm_compute; reflexivity). discriminate. Qed.

(** ** Serial execution *)

Lemma castAll_counts (pid : ObjectId) (reqs : list CastReq) :
  ∀ (w : World) (p : Poll),
    polls w !! pid = Some p →
    Forall (fun req => req_pollId req = pid) reqs →
    NoDup (map req_userId reqs) →
    (∀ u, u ∈ votedUsers p → u ∉ map req_userId reqs) →
    Forall (fun r => code r = 201) (castAll reqs w).1 →
    ∃ p', polls (castAll reqs w).2 !! pid = Some p'
          ∧ totalVotes p' = totalVotes p + Z.of_nat (length reqs)
          ∧ uniqueVoters p' = uniqueVoters p + Z.of_nat (length reqs).
Proof.
  induction reqs as [| req rest IH]; intros w p Hp Hpid Hnodup Hnew Hok.
  - exists p. simpl. repeat split; [done | lia | lia].
  - simpl in Hok |- *.
    destruct (castVote req w) as [r w1] eqn:Hrun.
    destruct (castAll rest w1) as [rs w2] eqn:Hrest.
    simpl in Hok |- *.
    apply Forall_cons in Hok as [Hr Hrs].
    apply Forall_cons in Hpid as [Hreq Hpids].
    apply NoDup_cons in Hnodup as [Hfresh Hnodup].
    destruct (castVote_cases req w)
      as [(_ & E) | [(q & _ & _ & E) | [(q & _ & _ & _ & E)
         | [(q & msg & _ & _ & E) | (q & p1 & o & Hq & _ & Hadd & _ & E)]]]];
      simpl in E; rewrite E in Hrun; inversion Hrun; subst r w1; try discriminate.
    clear Hrun E Hr.
    rewrite Hreq, Hp in Hq. injection Hq as <-.
    destruct (addVote_returned _ _ _ _ _ _ Hadd) as (_ & _ & _ & Htv & Hvu & Huv & _).
    assert (Hnotin : req_userId req ∉ votedUsers p).
    { intros Hin. apply (Hnew _ Hin). simpl. apply list_elem_of_here. }
    rewrite bool_decide_eq_false_2 in Hvu, Huv by done.
    destruct (IH (castWorld req (preSave (t_save req) p1)
                    (mkVote (req_pollId req) (req_userId req) (req_optionIndex req)
                            (text o) (anonymousVoting (settings p1)) (t_vote req)) w)
                 (preSave (t_save req) p1)) as (p' & Hp' & Htv' & Huv').
    + rewrite <- Hreq. unfold castWorld. destruct (negb _); simpl; apply lookup_insert_eq.
    + done.
    + done.
    + intros u Hu. rewrite preSave_votedUsers, Hvu in Hu.
      apply elem_of_app in Hu as [Hu | Hu].
      * intros Hin. apply (Hnew _ Hu). simpl. by apply list_elem_of_further.
      * apply list_elem_of_singleton in Hu as ->. done.
    + by rewrite Hrest.
    + rewrite Hrest in Hp'. simpl in *.
      exists p'. rewrite preSave_totalVotes in Htv'. rewrite preSave_uniqueVoters in Huv'.
      repeat split; [done | lia | lia].
Qed.

(** N first votes of N distinct users on a poll nobody has voted in,
    served one after another and all answered 201, leave [totalVotes = N]
    and [uniqueVoters = N]. *)
Lemma serial_casts_counted (pid : ObjectId) (reqs : list CastReq) (w : World) (p : Poll) :
  polls w !! pid = Some p →
  totalVotes p = 0 → uniqueVoters p = 0 → votedUsers p = [] →
  Forall (fun req => req_pollId req = pid) reqs →
  NoDup (map req_userId reqs) →
  Forall (fun r => code r = 201) (castAll reqs w).1 →
  ∃ p', polls (castAll reqs w).2 !! pid = Some p'
        ∧ totalVotes p' = Z.of_nat (length reqs)
        ∧ uniqueVoters p' = Z.of_nat (length reqs).
Proof.
  intros Hp Htv Huv Hvu Hpid Hnodup Hok.
  destruct (castAll_counts pid reqs w p Hp Hpid Hnodup) as (p' & Hp' & Htv' & Huv').
  - rewrite Hvu. intros u Hu. inversion Hu.
  - done.
  - exists p'. repeat split; [done | lia | lia].
Qed.

Lemma serial_casts_counted_three :
  ∃ p', polls (castAll threeCasts (world0 1)).2 !! "p1" = Some p'
        ∧ totalVotes p' = 3
        ∧ uniqueVoters p' = 3.
Proof.
  apply (serial_casts_counted "p1" threeCasts (world0 1) (colours 1)).
  - vm_compute. reflexivity.
  - reflexivity.
  - reflexivity.
  - reflexivity.
  - repeat constructor.
  - vm_compute. apply (bool_decide_unpack (NoDup ["u1"; "u2"; "u3"])). vm_compute. exact I.
  - vm_compute. repeat constructor.
Defined.

(** * Further properties of the engine *)

(** ** What a cast leaves alone *)

Lemma castWorld_polls (req : CastReq) (p' : Poll) (v : Vote) (w : World) :
  polls (castWorld req p' v w) = <[req_pollId req := p']> (polls w).
Proof. unfold castWorld. by destruct (negb _). Qed.

Lemma castWorld_ledger (req : CastReq) (p' : Poll) (v : Vote) (w : World) :
  ledger (castWorld req p' v w) = <[new_voteId req := v]> (ledger w).
Proof. unfold castWorld. by destruct (negb _). Qed.

Lemma castWorld_users (req : CastReq) (p' : Poll) (v : Vote) (w : World) :
  users (castWorld req p' v w)
  = if negb (hasVotedForPoll (req_user req) (req_pollId req))
    then <[req_userId req :=
             set_votedPolls (votedPolls (req_user req)
                             ++ [mkVotedPoll (req_pollId req) (t_history req)])
                            (req_user req)]> (users w)
    else users w.
Proof. unfold castWorld. by destruct (negb _). Qed.

(** Whatever it answers, the cast handler touches no poll but the one
    addressed, no user document but the caller's, and no ledger entry but
    the one stored under the new [_id]. *)
Theorem castVote_frame (req : CastReq) (w : World) :
  (∀ pid, pid ≠ req_pollId req → polls (castVote req w).2 !! pid = polls w !! pid)
  ∧ (∀ uid, uid ≠ req_userId req → users (castVote req w).2 !! uid = users w !! uid)
  ∧ (∀ vid, vid ≠ new_voteId req → ledger (castVote req w).2 !! vid = ledger w !! vid).
Proof.
  destruct (castVote_cases req w)
    as [(_ & E) | [(q & _ & _ & E) | [(q & _ & _ & _ & E)
       | [(q & msg & _ & _ & E) | (q & p' & o & _ & _ & _ & _ & E)]]]];
    simpl in E; rewrite E; simpl; try done.
  rewrite castWorld_polls, castWorld_ledger, castWorld_users.
  repeat split.
  - intros pid Hne. by rewrite lookup_insert_ne.
  - intros uid Hne. destruct (negb _); [by rewrite lookup_insert_ne | done].
  - intros vid Hne. by rewrite lookup_insert_ne.
Qed.

(** ** The ledger and the aggregates stay in step *)

Lemma hasLedgerVote_insert (l : gmap ObjectId Vote) (vid : ObjectId) (v : Vote)
      (pid uid : ObjectId) :
  l !! vid = None →
  hasLedgerVote (<[vid := v]> l) pid uid
  ↔ hasLedgerVote l pid uid ∨ (vote_pollId v = pid ∧ vote_userId v = uid).
Proof.
  intros Hfresh. unfold hasLedgerVote. split.
  - intros (k & x & Hk & Hp & Hu).
    destruct (decide (k = vid)) as [-> | Hne].
    + rewrite lookup_insert_eq in Hk. injection Hk as <-. by right.
    + rewrite lookup_insert_ne in Hk by done. left. eauto.
  - intros [(k & x & Hk & Hp & Hu) | (Hp & Hu)].
    + exists k, x. split; [| done].
      rewrite lookup_insert_ne; [done |]. intros ->. congruence.
    + exists vid, v. by rewrite lookup_insert_eq.
Qed.

Lemma ledgerCount_insert (l : gmap ObjectId Vote) (vid : ObjectId) (v : Vote)
      (P : Vote → Prop) `{!∀ x, Decision (P x)} :
  l !! vid = None →
  ledgerCount (<[vid := v]> l) P
  = if decide (P v) then S (ledgerCount l P) else ledgerCount l P.
Proof.
  intros Hfresh. unfold ledgerCount. destruct (decide (P v)) as [HP | HP].
  - rewrite map_filter_insert_True by done.
    rewrite map_size_insert_None; [done |].
    apply map_lookup_filter_None. by left.
  - rewrite map_filter_insert_False by done. by rewrite delete_id.
Qed.

(** A cast keeps [votedUsers] in step with the ledger, in every poll:
    when the new entry's [_id] is fresh and every poll's [votedUsers]
    lists exactly the users with a ledger entry for it, the same holds
    after the handler has run, whatever it answered. *)
Theorem castVote_preserves_ledgerAgrees (req : CastReq) (w : World) :
  ledger w !! new_voteId req = None →
  ledgerAgrees w → ledgerAgrees (castVote req w).2.
Proof.
  intros Hfresh Hagree.
  destruct (castVote_cases req w)
    as [(_ & E) | [(q & _ & _ & E) | [(q & _ & _ & _ & E)
       | [(q & msg & _ & _ & E) | (q & p' & o & Hq & _ & Hadd & _ & E)]]]];
    simpl in E; rewrite E; simpl; try done.
  destruct (addVote_returned _ _ _ _ _ _ Hadd) as (_ & _ & _ & _ & Hvu & _).
  intros pid p u Hp.
  rewrite castWorld_polls in Hp. rewrite castWorld_ledger.
  rewrite hasLedgerVote_insert by done. simpl.
  destruct (decide (pid = req_pollId req)) as [-> | Hne].
  - rewrite lookup_insert_eq in Hp. injection Hp as <-.
    rewrite preSave_votedUsers, Hvu.
    rewrite <- (Hagree _ _ u Hq).
    case_bool_decide as Hin.
    + split; [by left |]. intros [H | (_ & <-)]; done.
    + rewrite elem_of_app, list_elem_of_singleton.
      split; intros [H | H]; [by left | right; by subst | by left | right; by destruct H].
  - rewrite lookup_insert_ne in Hp by done.
    rewrite (Hagree _ _ u Hp).
    split; [by left | intros [H | (H & _)]; [done | by destruct Hne]].
Qed.

Lemma castVote_preserves_ledgerAgrees_witness :
  ledgerAgrees (castVote cast1 (world0 2)).2.
Proof.
  apply (castVote_preserves_ledgerAgrees cast1 (world0 2)).
  - vm_compute. reflexivity.
  - intros pid p u Hp. unfold world0 in Hp. simpl in Hp.
    apply lookup_singleton_Some in Hp as [<- <-]. simpl. split.
    + intros H. inversion H.
    + intros (k & x & Hk & _). rewrite lookup_empty in Hk. discriminate.
Defined.

(** A cast keeps every option counter equal to the number of ledger
    entries for that poll and option, in every poll: when the new entry's
    [_id] is fresh and the counters agree with the ledger before the
    handler runs, they agree afterwards, whatever it answered. *)
Theorem castVote_preserves_tallyAgrees (req : CastReq) (w : World) :
  ledger w !! new_voteId req = None →
  tallyAgrees w → tallyAgrees (castVote req w).2.
Proof.
  intros Hfresh Hagree.
  destruct (castVote_cases req w)
    as [(_ & E) | [(q & _ & _ & E) | [(q & _ & _ & _ & E)
       | [(q & msg & _ & _ & E) | (q & p' & o & Hq & _ & Hadd & _ & E)]]]];
    simpl in E; rewrite E; simpl; try done.
  destruct (addVote_returned _ _ _ _ _ _ Hadd) as (_ & Hidx & Hopts & _).
  intros pid p i x Hp Hx.
  rewrite castWorld_polls in Hp. rewrite castWorld_ledger.
  rewrite ledgerCount_insert by done. simpl.
  destruct (decide (pid = req_pollId req)) as [-> | Hne].
  - rewrite lookup_insert_eq in Hp. injection Hp as <-.
    rewrite preSave_options, Hopts in Hx.
    destruct (decide (i = Z.to_nat (req_optionIndex req))) as [-> | Hi].
    + rewrite list_lookup_alter_eq in Hx.
      destruct (options q !! Z.to_nat (req_optionIndex req)) as [y |] eqn:Hy;
        [| discriminate].
      injection Hx as <-. simpl.
      rewrite (Hagree _ _ _ _ Hq Hy).
      rewrite decide_True by (split; [done | lia]). lia.
    + rewrite list_lookup_alter_ne in Hx by done.
      rewrite (Hagree _ _ _ _ Hq Hx).
      rewrite decide_False; [done |]. intros (_ & H). lia.
  - rewrite lookup_insert_ne in Hp by done.
    rewrite (Hagree _ _ _ _ Hp Hx).
    rewrite decide_False; [done |]. intros (H & _). done.
Qed.

Lemma castVote_preserves_tallyAgrees_witness :
  tallyAgrees (castVote cast1 (world0 2)).2.
Proof.
  apply (castVote_preserves_tallyAgrees cast1 (world0 2)).
  - vm_compute. reflexivity.
  - intros pid p i x Hp Hx. unfold world0 in Hp. simpl in Hp.
    apply lookup_singleton_Some in Hp as [<- <-]. simpl in *.
    unfold ledgerCount. rewrite map_filter_empty, map_size_empty.
    destruct i as [| [| i]]; simpl in Hx; [| | done]; by injection Hx as <-.
Defined.

(** ** What a retraction leaves alone, and what it keeps *)

(** The handler on an existing vote whose poll is gone. *)
Lemma deleteVote_orphan (req : DeleteReq) (w : World) (v : Vote) :
  del_role req = admin →
  ledger w !! del_voteId req = Some v →
  polls w !! vote_pollId v = None →
  deleteVote req w
  = if bool_decide (countOtherVotes (ledger w) (vote_pollId v) (vote_userId v)
                                    (del_voteId req) = 0%nat)
    then (respond 500 "Server error deleting vote", w)
    else (respond 200 "Vote deleted successfully",
          set_ledger (delete (del_voteId req) (ledger w)) w).
Proof.
  intros Hrole Hv Hp. unfold deleteVote. rewrite Hrole, Hv, Hp. reflexivity.
Qed.

(** The retraction handler refuses a caller who is not an administrator
    (403) and an unknown vote (404) without changing anything; and
    whatever it answers, it writes no user document, no ledger entry but
    the one addressed, and no poll but the one that entry refers to. *)
Theorem deleteVote_frame (req : DeleteReq) (w : World) :
  (del_role req ≠ admin → deleteVote req w = (respond 403 "Admin access required", w))
  ∧ (del_role req = admin → ledger w !! del_voteId req = None →
     deleteVote req w = (respond 404 "Vote not found", w))
  ∧ users (deleteVote req w).2 = users w
  ∧ (∀ vid, vid ≠ del_voteId req →
            ledger (deleteVote req w).2 !! vid = ledger w !! vid)
  ∧ (∀ pid, (∀ v, ledger w !! del_voteId req = Some v → vote_pollId v ≠ pid) →
            polls (deleteVote req w).2 !! pid = polls w !! pid).
Proof.
  split; [| split].
  - intros Hne. unfold deleteVote. by rewrite bool_decide_eq_false_2.
  - intros Hrole Hnone. unfold deleteVote. by rewrite Hrole, Hnone.
  - destruct (decide (del_role req = admin)) as [Hrole | Hrole];
      [| unfold deleteVote; by rewrite bool_decide_eq_false_2].
    destruct (ledger w !! del_voteId req) as [v |] eqn:Hv;
      [| unfold deleteVote; by rewrite Hrole, Hv].
    destruct (polls w !! vote_pollId v) as [p |] eqn:Hp.
    + rewrite (deleteVote_on_poll req w v p Hrole Hv Hp). cbv zeta.
      destruct (bool_decide _); simpl; repeat split; try done.
      * intros pid Hpid. rewrite lookup_insert_ne; [done |]. by apply Hpid.
      * intros vid Hne. by rewrite lookup_delete_ne.
      * intros pid Hpid. rewrite lookup_insert_ne; [done |]. by apply Hpid.
    + rewrite (deleteVote_orphan req w v Hrole Hv Hp).
      destruct (bool_decide _); simpl; repeat split; try done.
      intros vid Hne. by rewrite lookup_delete_ne.
Qed.

Lemma deleteVote_frame_witness :
  deleteVote (mkDeleteReq "v1" voter 130) world2
  = (respond 403 "Admin access required", world2)
  ∧ deleteVote (mkDeleteReq "v7" admin 130) world2 = (respond 404 "Vote not found", world2)
  ∧ polls (deleteVote retract1 world2).2 !! "p9" = polls world2 !! "p9".
Proof.
  split; [| split].
  - apply (deleteVote_frame (mkDeleteReq "v1" voter 130) world2). discriminate.
  - apply (deleteVote_frame (mkDeleteReq "v7" admin 130) world2);
      [reflexivity | vm_compute; reflexivity].
  - apply (deleteVote_frame retract1 world2).
    intros v Hv. vm_compute in Hv. injection Hv as <-. discriminate.
Defined.

Lemma deleteVote_answers_200 (req : DeleteReq) (w : World) :
  code (deleteVote req w).1 = 200 →
  ∃ v, del_role req = admin
       ∧ ledger w !! del_voteId req = Some v
       ∧ countOtherVotes (ledger w) (vote_pollId v) (vote_userId v) (del_voteId req)
         ≠ 0%nat
       ∧ ledger (deleteVote req w).2 = delete (del_voteId req) (ledger w)
       ∧ polls (deleteVote req w).2
         = match polls w !! vote_pollId v with
           | Some p =>
             <[vote_pollId v :=
                 preSave (del_t_save req)
                   (retractFrom p v
                      (countOtherVotes (ledger w) (vote_pollId v) (vote_userId v)
                                       (del_voteId req)))]> (polls w)
           | None => polls w
           end.
Proof.
  intros Hcode.
  destruct (decide (del_role req = admin)) as [Hrole | Hrole];
    [| unfold deleteVote in Hcode; rewrite bool_decide_eq_false_2 in Hcode by done;
       discriminate].
  destruct (ledger w !! del_voteId req) as [v |] eqn:Hv;
    [| unfold deleteVote in Hcode; rewrite Hrole, Hv in Hcode; discriminate].
  exists v. split; [done |]. split; [done |].
  destruct (polls w !! vote_pollId v) as [p |] eqn:Hp.
  - rewrite (deleteVote_on_poll req w v p Hrole Hv Hp) in *. cbv zeta in *.
    case_bool_decide as Hn; simpl in *; [discriminate | done].
  - rewrite (deleteVote_orphan req w v Hrole Hv Hp) in *.
    case_bool_decide as Hn; simpl in *; [discriminate | done].
Qed.

Lemma countOtherVotes_nonzero (l : gmap ObjectId Vote) (pid uid vid : ObjectId) :
  countOtherVotes l pid uid vid ≠ 0%nat
  ↔ ∃ k x, k ≠ vid ∧ l !! k = Some x ∧ vote_pollId x = pid ∧ vote_userId x = uid.
Proof.
  unfold countOtherVotes. rewrite map_size_ne_0_lookup. split.
  - intros (k & [x Hx]). apply map_lookup_filter_Some in Hx as (Hk & Hp & Hu & Hne).
    exists k, x. done.
  - intros (k & x & Hne & Hk & Hp & Hu). exists k, x.
    apply map_lookup_filter_Some. done.
Qed.

Lemma hasLedgerVote_delete (l : gmap ObjectId Vote) (vid : ObjectId) (v : Vote)
      (pid uid : ObjectId) :
  l !! vid = Some v →
  countOtherVotes l (vote_pollId v) (vote_userId v) vid ≠ 0%nat →
  hasLedgerVote (delete vid l) pid uid ↔ hasLedgerVote l pid uid.
Proof.
  intros Hv Hn. unfold hasLedgerVote. split.
  - intros (k & x & Hk & Hp & Hu).
    apply lookup_delete_Some in Hk as [_ Hk]. eauto.
  - intros (k & x & Hk & Hp & Hu).
    destruct (decide (k = vid)) as [-> | Hne].
    + rewrite Hv in Hk. injection Hk as <-.
      apply countOtherVotes_nonzero in Hn as (k' & x' & Hne' & Hk' & Hp' & Hu').
      exists k', x'. rewrite lookup_delete_ne by done. repeat split; congruence.
    + exists k, x. by rewrite lookup_delete_ne.
Qed.

Lemma ledgerCount_delete (l : gmap ObjectId Vote) (vid : ObjectId) (v : Vote)
      (P : Vote → Prop) `{!∀ x, Decision (P x)} :
  l !! vid = Some v →
  ledgerCount l P
  = if decide (P v) then S (ledgerCount (delete vid l) P)
    else ledgerCount (delete vid l) P.
Proof.
  intros Hv.
  pose proof (ledgerCount_insert (delete vid l) vid v P (lookup_delete_eq l vid)) as Hins.
  by rewrite (insert_delete_id l vid v Hv) in Hins.
Qed.

(** A retraction answered 200 keeps the ledger and the aggregates in
    step: if before it every poll's [votedUsers] lists exactly the users
    with a ledger entry for it, and every option counter is the number of
    ledger entries for its poll and index, then both hold afterwards. *)
Theorem deleteVote_preserves_agreement (req : DeleteReq) (w : World) :
  ledgerAgrees w → tallyAgrees w →
  code (deleteVote req w).1 = 200 →
  ledgerAgrees (deleteVote req w).2 ∧ tallyAgrees (deleteVote req w).2.
Proof.
  intros Hledger Htally Hcode.
  destruct (deleteVote_answers_200 req w Hcode) as (v & _ & Hv & Hn & Hl & Hps).
  split.
  - intros pid p u Hp. rewrite Hl, (hasLedgerVote_delete _ _ v) by done.
    rewrite Hps in Hp.
    destruct (polls w !! vote_pollId v) as [q |] eqn:Hq; [| by apply Hledger].
    destruct (decide (pid = vote_pollId v)) as [-> | Hne].
    + rewrite lookup_insert_eq in Hp. injection Hp as <-.
      rewrite preSave_votedUsers. unfold retractFrom.
      rewrite bool_decide_eq_false_2 by done. simpl.
      rewrite <- (Hledger _ _ u Hq).
      by destruct (js_index (options q) (optionIndex v)).
    + rewrite lookup_insert_ne in Hp by done. by apply Hledger.
  - intros pid p i x Hp Hx. rewrite Hl. rewrite Hps in Hp.
    pose proof (ledgerCount_delete (ledger w) (del_voteId req) v
                  (fun y => vote_pollId y = pid ∧ optionIndex y = Z.of_nat i) Hv)
      as Hcount.
    destruct (polls w !! vote_pollId v) as [q |] eqn:Hq.
    + destruct (decide (pid = vote_pollId v)) as [-> | Hne].
      * rewrite lookup_insert_eq in Hp. injection Hp as <-.
        rewrite preSave_options in Hx. unfold retractFrom in Hx.
        rewrite bool_decide_eq_false_2 in Hx by done. simpl in Hx.
        destruct (js_index (options q) (optionIndex v)) as [y |] eqn:Hy; simpl in Hx.
        -- unfold js_index in Hy.
           destruct (optionIndex v <? 0) eqn:Hneg; [discriminate |].
           apply Z.ltb_ge in Hneg.
           destruct (decide (i = Z.to_nat (optionIndex v))) as [-> | Hi].
           ++ rewrite list_lookup_alter_eq, Hy in Hx. injection Hx as <-. simpl.
              pose proof (Htally _ _ _ _ Hq Hy) as Hvotes.
              rewrite decide_True in Hcount by (split; [done | lia]).
              lia.
           ++ rewrite list_lookup_alter_ne in Hx by done.
              rewrite (Htally _ _ _ _ Hq Hx).
              rewrite decide_False in Hcount; [by rewrite Hcount |].
              intros (_ & H). lia.
        -- rewrite (Htally _ _ _ _ Hq Hx).
           rewrite decide_False in Hcount; [by rewrite Hcount |].
           intros (_ & H). unfold js_index in Hy. rewrite H in Hy.
           rewrite (proj2 (Z.ltb_ge _ _)) in Hy by lia.
           rewrite Nat2Z.id in Hy. congruence.
      * rewrite lookup_insert_ne in Hp by done.
        rewrite (Htally _ _ _ _ Hp Hx).
        rewrite decide_False in Hcount; [by rewrite Hcount |].
        intros (H & _). done.
    + rewrite (Htally _ _ _ _ Hp Hx).
      rewrite decide_False in Hcount; [by rewrite Hcount |].
      intros (H & _). congruence.
Qed.

(** Where the retraction keeps the conservation equations of the poll:
    the vote's option exists, the user has exactly one voter record in it
    and, when this is the user's last vote in the poll, is listed once in
    [votedUsers]. *)
Theorem deleteVote_preserves_aggregateInv (req : DeleteReq) (w : World) (v : Vote)
        (p : Poll) (o : PollOption) :
  del_role req = admin →
  ledger w !! del_voteId req = Some v →
  polls w !! vote_pollId v = Some p →
  aggregateInv p →
  0 <= optionIndex v →
  options p !! Z.to_nat (optionIndex v) = Some o →
  length (filter (fun x => userId x = vote_userId v) (voters o)) = 1%nat →
  (countOtherVotes (ledger w) (vote_pollId v) (vote_userId v) (del_voteId req) = 0%nat →
   length (filter (fun u => u = vote_userId v) (votedUsers p)) = 1%nat) →
  ∃ p', polls (deleteVote req w).2 !! vote_pollId v = Some p' ∧ aggregateInv p'.
Proof.
  intros Hrole Hv Hp Hinv Hidx Ho Hone Hlisted.
  rewrite (deleteVote_on_poll req w v p Hrole Hv Hp). cbv zeta.
  eexists. split.
  - destruct (bool_decide _); simpl; apply lookup_insert_eq.
  - apply preSave_aggregateInv. eapply retractFrom_preserves_aggregateInv; eauto.
Qed.

Lemma world2_polls : polls world2 = {[ "p1" := coloursAfter2 ]}.
Proof. vm_compute. reflexivity. Qed.

Lemma world2_ledger : ledger world2 = <[ "v1" := vote1 ]> {[ "v2" := vote2 ]}.
Proof. vm_compute. reflexivity. Qed.

Lemma world2_ledgerAgrees : ledgerAgrees world2.
Proof.
  intros pid p u Hp. rewrite world2_polls in Hp. rewrite world2_ledger.
  apply lookup_singleton_Some in Hp as [<- <-]. simpl. split.
  - intros Hu. apply list_elem_of_singleton in Hu as ->.
    exists "v1", vote1. by rewrite lookup_insert_eq.
  - intros (k & x & Hk & _ & Hu).
    apply lookup_insert_Some in Hk as [[_ <-] | [_ Hk]].
    + simpl in Hu. subst u. apply list_elem_of_here.
    + apply lookup_singleton_Some in Hk as [_ <-]. simpl in Hu. subst u.
      apply list_elem_of_here.
Qed.

Lemma world2_tallyAgrees : tallyAgrees world2.
Proof.
  intros pid p i x Hp Hx. rewrite world2_polls in Hp. rewrite world2_ledger.
  apply lookup_singleton_Some in Hp as [<- <-].
  destruct i as [| [| i]]; simpl in Hx; [| | done]; injection Hx as <-;
    vm_compute; reflexivity.
Qed.

Lemma deleteVote_preserves_agreement_witness :
  ledgerAgrees (deleteVote retract1 world2).2 ∧ tallyAgrees (deleteVote retract1 world2).2.
Proof.
  apply (deleteVote_preserves_agreement retract1 world2).
  - exact world2_ledgerAgrees.
  - exact world2_tallyAgrees.
  - vm_compute. reflexivity.
Defined.

Lemma deleteVote_preserves_aggregateInv_witness :
  ∃ p', polls (deleteVote retract1 (castVote cast1 (world0 2)).2).2 !! "p1" = Some p'
        ∧ aggregateInv p'.
Proof.
  apply (deleteVote_preserves_aggregateInv retract1 (castVote cast1 (world0 2)).2
           vote1 coloursAfter1 (mkOption "Red" 1 [mkVoter "u1" 110])).
  - reflexivity.
  - vm_compute. reflexivity.
  - vm_compute. reflexivity.
  - repeat split; try reflexivity. repeat constructor.
  - simpl. lia.
  - reflexivity.
  - vm_compute. reflexivity.
  - intros _. vm_compute. reflexivity.
Defined.

(** The conservation equations after a cast, on the sample poll. *)
Lemma castVote_preserves_aggregateInv_witness :
  ∃ p', polls (castVote cast1 (world0 2)).2 !! "p1" = Some p' ∧ aggregateInv p'.
Proof.
  apply (castVote_preserves_aggregateInv cast1 (world0 2) (colours 2)).
  - vm_compute. reflexivity.
  - repeat split; try reflexivity. repeat constructor.
Defined.

(** The retraction of a user's last vote in a poll stops half-way.
    Whenever an administrator retracts a vote of an existing poll and the
    ledger holds no other vote of that user in that poll, the handler
    answers 500 and writes neither the ledger nor a user document; the
    poll has been written back with the vote retracted and the user taken
    out of [votedUsers], while the ledger still holds the entry, so that
    the ledger and [votedUsers] no longer agree. *)
Theorem deleteVote_last_vote (req : DeleteReq) (w : World) (v : Vote) (p : Poll) :
  del_role req = admin →
  ledger w !! del_voteId req = Some v →
  polls w !! vote_pollId v = Some p →
  countOtherVotes (ledger w) (vote_pollId v) (vote_userId v) (del_voteId req) = 0%nat →
  (deleteVote req w).1 = respond 500 "Server error deleting vote"
  ∧ ledger (deleteVote req w).2 = ledger w
  ∧ users (deleteVote req w).2 = users w
  ∧ (∃ p', polls (deleteVote req w).2 !! vote_pollId v = Some p'
           ∧ totalVotes p' = Z.max 0 (totalVotes p - 1)
           ∧ uniqueVoters p' = Z.max 0 (uniqueVoters p - 1)
           ∧ vote_userId v ∉ votedUsers p')
  ∧ hasLedgerVote (ledger (deleteVote req w).2) (vote_pollId v) (vote_userId v)
  ∧ ¬ ledgerAgrees (deleteVote req w).2.
Proof.
  intros Hrole Hv Hp Hn.
  rewrite (deleteVote_on_poll req w v p Hrole Hv Hp). rewrite Hn. simpl.
  set (p' := preSave (del_t_save req) (retractFrom p v 0)).
  assert (Hp' : <[vote_pollId v := p']> (polls w) !! vote_pollId v = Some p')
    by apply lookup_insert_eq.
  assert (Hout : vote_userId v ∉ votedUsers p').
  { unfold p'. rewrite preSave_votedUsers. unfold retractFrom. simpl.
    intros Hin. apply list_elem_of_filter in Hin as [Hne _]. by apply Hne. }
  assert (Hledger : hasLedgerVote (ledger w) (vote_pollId v) (vote_userId v)).
  { exists (del_voteId req), v. done. }
  split; [done |]. split; [done |]. split; [done |]. split; [| split; [done |]].
  - exists p'. split; [done |]. unfold p'.
    rewrite preSave_totalVotes, preSave_uniqueVoters. unfold retractFrom. simpl.
    split; [| split; [| done]].
    + by destruct (js_index (options p) (optionIndex v)).
    + by destruct (js_index (options p) (optionIndex v)).
  - intros Hagree. apply Hout. by apply (Hagree (vote_pollId v) p' (vote_userId v) Hp').
Qed.

Lemma deleteVote_last_vote_witness :
  (deleteVote retract1 (castVote cast1 (world0 2)).2).1
  = respond 500 "Server error deleting vote"
  ∧ ledger (deleteVote retract1 (castVote cast1 (world0 2)).2).2
    = ledger (castVote cast1 (world0 2)).2
  ∧ ¬ ledgerAgrees (deleteVote retract1 (castVote cast1 (world0 2)).2).2.
Proof.
  destruct (deleteVote_last_vote retract1 (castVote cast1 (world0 2)).2 vote1 coloursAfter1)
    as (Hr & Hl & _ & _ & _ & Hno).
  - reflexivity.
  - vm_compute. reflexivity.
  - vm_compute. reflexivity.
  - vm_compute. reflexivity.
  - repeat split; assumption.
Defined.

(** ** The quota *)

Lemma canUserVote_allowed (p : Poll) (uid : ObjectId) (now : Date) :
  canVote (canUserVote p uid now) = true ↔
  inWindow p now ∧ priorVotes p uid < maxVotesAllowed p.
Proof.
  unfold canUserVote. rewrite userVoteCount_priorVotes.
  destruct (isActive p now) eqn:Ha; simpl.
  - apply isActive_inWindow in Ha.
    destruct (priorVotes p uid >=? maxVotesAllowed p) eqn:E; simpl.
    + apply Z.geb_le in E. split; [discriminate | lia].
    + rewrite Z.geb_leb in E. apply Z.leb_gt in E. done.
  - apply isActive_outside in Ha. split; [discriminate | tauto].
Qed.

Lemma records_alter_castOn (P : Voter → Prop) `{!∀ x, Decision (P x)}
      (uid : ObjectId) (stamp : Date) (os : list PollOption) (i : nat) :
  (i < length os)%nat →
  length (filter P (concat (map voters (alter (castOn uid stamp) i os))))
  = (length (filter P (concat (map voters os)))
     + if decide (P (mkVoter uid stamp)) then 1 else 0)%nat.
Proof.
  revert i. induction os as [| o os IH]; intros [| i] Hi; simpl in *; try lia.
  - rewrite !filter_app, !length_app, filter_cons, filter_nil.
    destruct (decide (P (mkVoter uid stamp))); simpl; lia.
  - fold (alter (castOn uid stamp) i os).
    rewrite !filter_app, !length_app, IH by lia. lia.
Qed.

Lemma addVote_priorVotes (p p' : Poll) (uid : ObjectId) (idx : Z) (now stamp : Date)
      (u : ObjectId) :
  addVote p uid idx now stamp = Returned p' →
  priorVotes p' u = priorVotes p u + (if decide (uid = u) then 1 else 0)
  ∧ maxVotesAllowed p' = maxVotesAllowed p.
Proof.
  intros Hadd.
  destruct (addVote_returned _ _ _ _ _ _ Hadd) as (_ & Hidx & Hopts & _ & _ & _ & Hrest).
  split.
  - unfold priorVotes, voterRecords. rewrite Hopts.
    rewrite (records_alter_castOn (fun v => userId v = u)) by lia. simpl.
    destruct (decide (uid = u)); lia.
  - apply (f_equal settings) in Hrest. simpl in Hrest.
    unfold maxVotesAllowed. by rewrite Hrest.
Qed.

Lemma preSave_priorVotes (now : Date) (p : Poll) (u : ObjectId) :
  priorVotes (preSave now p) u = priorVotes p u
  ∧ maxVotesAllowed (preSave now p) = maxVotesAllowed p.
Proof.
  unfold priorVotes, voterRecords, maxVotesAllowed.
  by rewrite preSave_options, preSave_settings.
Qed.

(** The cast handler never lets a user exceed the quota: if no user has
    more voter records in the addressed poll than [maxVotesPerUser || 1]
    allows, this is still so after the handler has run, whatever it
    answered; and the number of records of every user other than the
    caller is unchanged. *)
Theorem castVote_preserves_withinQuota (req : CastReq) (w : World) (p : Poll) :
  polls w !! req_pollId req = Some p → withinQuota p →
  ∃ p', polls (castVote req w).2 !! req_pollId req = Some p'
        ∧ withinQuota p'
        ∧ ∀ u, u ≠ req_userId req → priorVotes p' u = priorVotes p u.
Proof.
  intros Hp Hquota.
  destruct (castVote_cases req w)
    as [(_ & E) | [(q & _ & _ & E) | [(q & _ & _ & _ & E)
       | [(q & msg & _ & _ & E) | (q & p' & o & Hq & _ & Hadd & _ & E)]]]];
    simpl in E; rewrite E; simpl; eauto.
  rewrite Hp in Hq. injection Hq as <-.
  destruct (addVote_returned _ _ _ _ _ _ Hadd) as (Hcan & _).
  apply canUserVote_allowed in Hcan as [_ Hlt].
  exists (preSave (t_save req) p'). rewrite castWorld_polls, lookup_insert_eq.
  split; [done |]. split.
  - intros u. destruct (preSave_priorVotes (t_save req) p' u) as [-> ->].
    destruct (addVote_priorVotes _ _ _ _ _ _ u Hadd) as [-> ->].
    specialize (Hquota u). destruct (decide (req_userId req = u)) as [<- |]; lia.
  - intros u Hne. destruct (preSave_priorVotes (t_save req) p' u) as [-> _].
    destruct (addVote_priorVotes _ _ _ _ _ _ u Hadd) as [-> _].
    rewrite decide_False by done. lia.
Qed.

Lemma colours_withinQuota (quota : Z) : 0 <= quota → withinQuota (colours quota).
Proof.
  intros Hq u. unfold priorVotes, maxVotesAllowed. simpl.
  destruct (quota =? 0) eqn:E; lia.
Qed.

Lemma castVote_preserves_withinQuota_witness :
  ∃ p', polls (castVote cast1 (world0 2)).2 !! "p1" = Some p'
        ∧ withinQuota p'
        ∧ ∀ u, u ≠ "u1" → priorVotes p' u = priorVotes (colours 2) u.
Proof.
  apply (castVote_preserves_withinQuota cast1 (world0 2) (colours 2)).
  - vm_compute. reflexivity.
  - apply colours_withinQuota. lia.
Defined.

(** A user who has reached the quota is always refused, and nothing
    changes: whenever the caller already has [maxVotesPerUser || 1] voter
    records or more in the poll, the handler answers 400 and leaves the
    polls, the ledger and the users as they were - whatever the time and
    the option asked for. *)
Theorem castVote_at_quota (req : CastReq) (w : World) (p : Poll) :
  polls w !! req_pollId req = Some p →
  maxVotesAllowed p <= priorVotes p (req_userId req) →
  code (castVote req w).1 = 400 ∧ (castVote req w).2 = w.
Proof.
  intros Hp Hfull.
  assert (Hcan : canVote (canUserVote p (req_userId req) (t_check req)) = false).
  { destruct (canVote _) eqn:E; [| done].
    apply canUserVote_allowed in E as [_ Hlt]. lia. }
  unfold castVote, cast_begin. rewrite Hp, Hcan. done.
Qed.

Lemma castVote_at_quota_witness :
  code (castVote (mkCastReq "p1" 1 "u1" alice' 120 120 120 120 "v2" 120 120)
                 (castVote cast1 (world0 1)).2).1 = 400
  ∧ (castVote (mkCastReq "p1" 1 "u1" alice' 120 120 120 120 "v2" 120 120)
              (castVote cast1 (world0 1)).2).2
    = (castVote cast1 (world0 1)).2.
Proof.
  apply (castVote_at_quota _ _
           (mkPoll "Favourite colour"
                   [mkOption "Red" 1 [mkVoter "u1" 110]; mkOption "Blue" 0 []]
                   100 200 active 1 1 ["u1"] (mkSettings false 1))).
  - vm_compute. reflexivity.
  - vm_compute. discriminate.
Defined.

(** ** The user's history *)

Lemma hasVotedForPoll_elem (u : User) (pid : ObjectId) :
  hasVotedForPoll u pid = true ↔ pid ∈ map vp_pollId (votedPolls u).
Proof.
  unfold hasVotedForPoll. rewrite existsb_exists, list_elem_of_In, in_map_iff.
  split; intros (x & H1 & H2).
  - apply bool_decide_eq_true in H2. eauto.
  - exists x. split; [done |]. by apply bool_decide_eq_true.
Qed.

(** The history kept by [addVotedPoll]: after a successful cast by a
    caller whose document is the stored one, the stored document lists the
    poll; it lists it once if no poll was listed twice before; and the
    history grows by one entry exactly when the poll was not listed yet,
    so that the user's [getStats().totalVotes] counts polls, not votes. *)
Theorem castVote_history (req : CastReq) (w : World) :
  users w !! req_userId req = Some (req_user req) →
  historyOnce (req_user req) →
  code (castVote req w).1 = 201 →
  ∃ u', users (castVote req w).2 !! req_userId req = Some u'
        ∧ hasVotedForPoll u' (req_pollId req) = true
        ∧ historyOnce u'
        ∧ userTotalVotes u'
          = userTotalVotes (req_user req)
            + (if hasVotedForPoll (req_user req) (req_pollId req) then 0 else 1).
Proof.
  intros Hu Honce Hcode.
  destruct (castVote_cases req w)
    as [(_ & E) | [(q & _ & _ & E) | [(q & _ & _ & _ & E)
       | [(q & msg & _ & _ & E) | (q & p' & o & _ & _ & _ & _ & E)]]]];
    simpl in E; rewrite E in Hcode |- *; simpl in *; try discriminate.
  rewrite castWorld_users.
  destruct (hasVotedForPoll (req_user req) (req_pollId req)) eqn:Hhas; simpl.
  - exists (req_user req). repeat split; try done. lia.
  - eexists. split; [apply lookup_insert_eq |]. split; [| split].
    + apply hasVotedForPoll_elem. simpl. rewrite map_app, elem_of_app. right.
      apply list_elem_of_here.
    + unfold historyOnce. simpl. rewrite map_app. apply NoDup_app.
      split; [done |]. split; [| apply NoDup_singleton].
      intros x Hx Hx'. apply list_elem_of_singleton in Hx' as ->.
      apply hasVotedForPoll_elem in Hx. simpl in Hx. congruence.
    + unfold userTotalVotes. simpl. rewrite length_app. simpl. lia.
Qed.

Lemma castVote_history_witness :
  ∃ u', users (castVote cast1 (world0 2)).2 !! "u1" = Some u'
        ∧ hasVotedForPoll u' "p1" = true
        ∧ historyOnce u'
        ∧ userTotalVotes u' = userTotalVotes alice + 1.
Proof.
  apply (castVote_history cast1 (world0 2)).
  - vm_compute. reflexivity.
  - apply NoDup_nil_2.
  - vm_compute. reflexivity.
Defined.

(** ** Active polls *)

(** The static [getActivePolls] and the virtuals agree: the query
    returns exactly the stored polls whose [isActive] is true at that
    instant; none of them has ended and each has time remaining, no more
    than its whole window.  A poll that has ended has no time remaining,
    and [timeRemaining] is never negative. *)
Theorem getActivePolls_isActive (now : Date) (m : gmap ObjectId Poll) (id : ObjectId)
        (p : Poll) :
  (getActivePolls now m !! id = Some p ↔ m !! id = Some p ∧ isActive p now = true)
  ∧ (isActive p now = true →
     hasEnded p now = false
     ∧ 0 < timeRemaining p now <= endDate p - startDate p)
  ∧ (hasEnded p now = true → timeRemaining p now = 0 ∧ isActive p now = false)
  ∧ 0 <= timeRemaining p now.
Proof.
  unfold getActivePolls, hasEnded, timeRemaining.
  split; [| split; [| split]].
  - rewrite map_lookup_filter_Some, isActive_inWindow. unfold inWindow. simpl.
    intuition lia.
  - intros Ha. apply isActive_inWindow in Ha as (_ & Hs & He).
    destruct (now >? endDate p) eqn:E; [apply Z.gtb_gt in E; lia |].
    split; [done | lia].
  - intros He. rewrite He. split; [done |].
    apply isActive_outside. intros (_ & _ & Hlt). apply Z.gtb_gt in He. lia.
  - destruct (now >? endDate p) eqn:E; [lia |].
    rewrite Z.gtb_ltb in E. apply Z.ltb_ge in E. lia.
Qed.

Lemma getActivePolls_isActive_witness :
  getActivePolls 150 (polls (world0 1)) !! "p1" = Some (colours 1)
  ∧ hasEnded (colours 1) 150 = false
  ∧ 0 < timeRemaining (colours 1) 150 <= 100
  ∧ timeRemaining (colours 1) 250 = 0.
Proof.
  destruct (getActivePolls_isActive 150 (polls (world0 1)) "p1" (colours 1))
    as (H1 & H2 & _).
  destruct (getActivePolls_isActive 250 (polls (world0 1)) "p1" (colours 1))
    as (_ & _ & H3 & _).
  split; [apply H1; split; [vm_compute; reflexivity | reflexivity] |].
  split; [apply H2; reflexivity |].
  split; [apply H2; reflexivity |].
  apply H3. reflexivity.
Defined.

(** ** Site statistics *)

Lemma sumPolls_empty (f : Poll → Z) : sumPolls f ∅ = 0.
Proof. unfold sumPolls. apply map_fold_empty. Qed.

Lemma sumPolls_insert_fresh (f : Poll → Z) (m : gmap ObjectId Poll) (id : ObjectId)
      (p : Poll) :
  m !! id = None → sumPolls f (<[id := p]> m) = f p + sumPolls f m.
Proof.
  intros Hnone. unfold sumPolls.
  rewrite map_fold_insert_L; [done | | done]. intros. lia.
Qed.

Lemma sumPolls_update (f : Poll → Z) (m : gmap ObjectId Poll) (id : ObjectId)
      (p p' : Poll) :
  m !! id = Some p → sumPolls f (<[id := p']> m) = sumPolls f m - f p + f p'.
Proof.
  intros Hp.
  rewrite <- (insert_delete_id m id p Hp) at 2.
  rewrite <- (insert_delete_eq m id p').
  rewrite !sumPolls_insert_fresh by apply lookup_delete_eq. lia.
Qed.

Lemma sumPolls_indicator (P : Poll → Prop) `{!∀ p, Decision (P p)}
      (m : gmap ObjectId Poll) :
  sumPolls (fun p => if bool_decide (P p) then 1 else 0) m
  = Z.of_nat (size (filter (fun kv : ObjectId * Poll => P kv.2) m)).
Proof.
  induction m as [| id p m Hnone IH] using map_ind.
  - by rewrite sumPolls_empty, map_filter_empty, map_size_empty.
  - rewrite sumPolls_insert_fresh, IH by done.
    case_bool_decide as HP.
    + rewrite map_filter_insert_True by done.
      rewrite map_size_insert_None; [lia |].
      apply map_lookup_filter_None. by left.
    + rewrite map_filter_insert_False by done. rewrite delete_id by done. lia.
Qed.

Lemma sumPolls_const_one (m : gmap ObjectId Poll) :
  sumPolls (fun _ => 1) m = Z.of_nat (size m).
Proof.
  induction m as [| id p m Hnone IH] using map_ind.
  - by rewrite sumPolls_empty, map_size_empty.
  - rewrite sumPolls_insert_fresh, IH, map_size_insert_None by done. lia.
Qed.

(** What [getStatistics] counts: [totalPolls] is the number of stored
    polls, [activePolls] and [completedPolls] the numbers of polls whose
    stored status is [active] and [completed], so that together they never
    exceed [totalPolls]; on an empty collection the five figures are
    zero. *)
Theorem getStatistics_counts (m : gmap ObjectId Poll) :
  totalPolls (getStatistics m) = Z.of_nat (size m)
  ∧ activePolls (getStatistics m)
    = Z.of_nat (size (filter (fun kv : ObjectId * Poll => status kv.2 = active) m))
  ∧ completedPolls (getStatistics m)
    = Z.of_nat (size (filter (fun kv : ObjectId * Poll => status kv.2 = completed) m))
  ∧ 0 <= activePolls (getStatistics m)
  ∧ 0 <= completedPolls (getStatistics m)
  ∧ activePolls (getStatistics m) + completedPolls (getStatistics m)
    <= totalPolls (getStatistics m)
  ∧ getStatistics ∅ = mkPollStatistics 0 0 0 0 0.
Proof.
  assert (Hsum : ∀ m' : gmap ObjectId Poll,
            sumPolls (fun p => if bool_decide (status p = active) then 1 else 0) m'
            + sumPolls (fun p => if bool_decide (status p = completed) then 1 else 0) m'
            <= sumPolls (fun _ => 1) m').
  { intros m'. induction m' as [| id p m' Hnone IH] using map_ind.
    - rewrite !sumPolls_empty. lia.
    - rewrite !sumPolls_insert_fresh by done.
      repeat case_bool_decide; try lia. congruence. }
  unfold getStatistics. destruct (decide (m = ∅)) as [-> | Hne]; simpl.
  - rewrite !map_filter_empty, !map_size_empty. repeat split; lia.
  - specialize (Hsum m).
    rewrite (sumPolls_indicator (fun p => status p = active)) in *.
    rewrite (sumPolls_indicator (fun p => status p = completed)) in *.
    rewrite sumPolls_const_one in *.
    repeat split; lia.
Qed.

(** A successful cast moves the site statistics by exactly one vote: the
    number of polls is unchanged, the total of votes grows by one, and the
    total of unique voters grows by one exactly when the caller was not
    yet in the poll's [votedUsers]. *)
Theorem castVote_statistics (req : CastReq) (w : World) (p : Poll) :
  polls w !! req_pollId req = Some p →
  code (castVote req w).1 = 201 →
  totalPolls (getStatistics (polls (castVote req w).2))
  = totalPolls (getStatistics (polls w))
  ∧ stat_totalVotes (getStatistics (polls (castVote req w).2))
    = stat_totalVotes (getStatistics (polls w)) + 1
  ∧ totalUniqueVoters (getStatistics (polls (castVote req w).2))
    = totalUniqueVoters (getStatistics (polls w))
      + (if bool_decide (req_userId req ∈ votedUsers p) then 0 else 1).
Proof.
  intros Hp Hcode.
  destruct (castVote_cases req w)
    as [(_ & E) | [(q & _ & _ & E) | [(q & _ & _ & _ & E)
       | [(q & msg & _ & _ & E) | (q & p' & o & Hq & _ & Hadd & _ & E)]]]];
    simpl in E; rewrite E in Hcode |- *; simpl in *; try discriminate.
  rewrite Hp in Hq. injection Hq as <-.
  destruct (addVote_returned _ _ _ _ _ _ Hadd) as (_ & _ & _ & Htv & _ & Huv & _).
  rewrite castWorld_polls. unfold getStatistics.
  rewrite decide_False by (intros H; by apply insert_non_empty in H).
  rewrite decide_False by (intros H; rewrite H, lookup_empty in Hp; discriminate).
  simpl. rewrite !(sumPolls_update _ _ _ p) by done.
  rewrite preSave_totalVotes, preSave_uniqueVoters, Htv, Huv.
  repeat split; try lia.
  case_bool_decide; lia.
Qed.

Lemma castVote_statistics_witness :
  totalPolls (getStatistics (polls (castVote cast1 (world0 2)).2))
  = totalPolls (getStatistics (polls (world0 2)))
  ∧ stat_totalVotes (getStatistics (polls (castVote cast1 (world0 2)).2))
    = stat_totalVotes (getStatistics (polls (world0 2))) + 1
  ∧ totalUniqueVoters (getStatistics (polls (castVote cast1 (world0 2)).2))
    = totalUniqueVoters (getStatistics (polls (world0 2))) + 1.
Proof.
  apply (castVote_statistics cast1 (world0 2) (colours 2)).
  - vm_compute. reflexivity.
  - vm_compute. reflexivity.
Defined.

(** ** Toggling a poll *)

Lemma preSave_as_set_status (now : Date) (p : Poll) :
  preSave now p = set_status (status (preSave now p)) p.
Proof. unfold preSave. destruct p. simpl. repeat case_match; reflexivity. Qed.

Lemma set_status_set_status (s s' : Status) (p : Poll) :
  set_status s (set_status s' p) = set_status s p.
Proof. reflexivity. Qed.

Lemma toggleStatus_allowed (meta : ObjectId → PollMeta) (actor : Actor) (id : ObjectId)
      (now : Date) (w : World) (p : Poll) :
  polls w !! id = Some p → accessDenied meta actor id = false →
  toggleStatus meta actor id now w
  = let p' := preSave now
                (set_status (if bool_decide (status p = active) then inactive else active) p) in
    (mkReply 200 "Poll status updated successfully" (Some (status p')),
     set_polls (<[id := p']> (polls w)) w).
Proof. intros Hp Hacc. unfold toggleStatus. by rewrite Hp, Hacc. Qed.

(** The toggle handler.  An unknown poll (404) and a caller who is
    neither administrator nor creator (403) change nothing.  Otherwise only
    the status of that poll is written: an [active] poll becomes
    [inactive]; a poll in any other status - [cancelled] and [completed]
    included - is set to [active] and then put through the save-time
    transition, so it ends up [draft] before its start, [completed] after
    its end, and [active] only inside its window.  The status reported is
    the one stored. *)
Theorem toggleStatus_outcome (meta : ObjectId → PollMeta) (actor : Actor) (id : ObjectId)
        (now : Date) (w : World) :
  (polls w !! id = None → toggleStatus meta actor id now w = (refuse 404 "Poll not found", w))
  ∧ (∀ p, polls w !! id = Some p →
       actor_role actor ≠ admin → createdBy (meta id) ≠ actor_id actor →
       toggleStatus meta actor id now w = (refuse 403 "Access denied", w))
  ∧ (∀ p, polls w !! id = Some p →
       actor_role actor = admin ∨ createdBy (meta id) = actor_id actor →
       ∃ s, toggleStatus meta actor id now w
            = (mkReply 200 "Poll status updated successfully" (Some s),
               set_polls (<[id := set_status s p]> (polls w)) w)
            ∧ (status p = active → s = inactive)
            ∧ (status p ≠ active → now < startDate p → s = draft)
            ∧ (status p ≠ active → startDate p <= now → endDate p < now → s = completed)
            ∧ (status p ≠ active → startDate p <= now <= endDate p → s = active)
            ∧ (s = active → startDate p <= now <= endDate p)).
Proof.
  split; [| split].
  - intros Hnone. unfold toggleStatus. by rewrite Hnone.
  - intros p Hp Hrole Hown. unfold toggleStatus, accessDenied. rewrite Hp.
    rewrite (bool_decide_eq_true_2 _ Hrole), (bool_decide_eq_true_2 _ Hown). done.
  - intros p Hp Hmay.
    assert (Hacc : accessDenied meta actor id = false).
    { unfold accessDenied. apply andb_false_iff.
      destruct Hmay as [H | H]; [left | right]; apply bool_decide_eq_false_2;
        intros Hne; by apply Hne. }
    rewrite (toggleStatus_allowed _ _ _ _ _ p Hp Hacc). cbv zeta.
    eexists. split.
    { rewrite (preSave_as_set_status now (set_status _ p)) at 2.
      rewrite set_status_set_status. reflexivity. }
    destruct p as [ti os sd ed st tv uv vu se]; simpl in *.
    unfold preSave; simpl.
    destruct st; simpl;
      destruct (now <? sd) eqn:Hs; destruct (now >? ed) eqn:He; simpl;
      try apply Z.ltb_lt in Hs; try apply Z.ltb_ge in Hs;
      try apply Z.gtb_gt in He; try (rewrite Z.gtb_ltb in He; apply Z.ltb_ge in He);
      repeat split; intros; try done; try lia.
Qed.

Lemma toggleStatus_outcome_witness :
  toggleStatus metaDefault stranger "p1" 150 (world0 1)
  = (refuse 403 "Access denied", world0 1)
  ∧ ∃ s, toggleStatus metaDefault owner "p1" 250
           (set_polls {[ "p1" := set_status cancelled (colours 1) ]} (world0 1))
         = (mkReply 200 "Poll status updated successfully" (Some s),
            set_polls (<[ "p1" := set_status s (set_status cancelled (colours 1)) ]>
                         {[ "p1" := set_status cancelled (colours 1) ]})
                      (set_polls {[ "p1" := set_status cancelled (colours 1) ]} (world0 1)))
         ∧ s = completed.
Proof.
  split.
  - apply (proj1 (proj2 (toggleStatus_outcome metaDefault stranger "p1" 150 (world0 1)))
             (colours 1)); [vm_compute; reflexivity | discriminate | discriminate].
  - destruct (proj2 (proj2 (toggleStatus_outcome metaDefault owner "p1" 250
             (set_polls {[ "p1" := set_status cancelled (colours 1) ]} (world0 1))))
             (set_status cancelled (colours 1)))
      as (s & Hrun & _ & _ & Hdone & _);
      [vm_compute; reflexivity | right; reflexivity |].
    exists s. split; [exact Hrun |].
    apply Hdone; simpl; [discriminate | lia | lia].
Defined.

(** Inside the window the toggle is its own inverse: for a poll stored
    as [active] or [inactive], two toggles by a permitted caller, both
    between [startDate] and [endDate], give back the world they started
    from. *)
Theorem toggleStatus_twice (meta : ObjectId → PollMeta) (actor : Actor) (id : ObjectId)
        (now now' : Date) (w : World) (p : Poll) :
  polls w !! id = Some p →
  accessDenied meta actor id = false →
  status p = active ∨ status p = inactive →
  startDate p <= now <= endDate p →
  startDate p <= now' <= endDate p →
  (toggleStatus meta actor id now' (toggleStatus meta actor id now w).2).2 = w.
Proof.
  intros Hp Hacc Hst Hnow Hnow'.
  rewrite (toggleStatus_allowed _ _ _ _ _ p Hp Hacc). cbv zeta. simpl.
  erewrite toggleStatus_allowed; [| simpl; apply lookup_insert_eq | done].
  cbv zeta. simpl. rewrite insert_insert_eq.
  destruct w as [ps l us]. unfold set_polls. simpl in *. f_equal.
  apply insert_id. rewrite Hp. f_equal.
  destruct p as [ti os sd ed st tv uv vu se]; simpl in *.
  assert (Hs : (now <? sd) = false) by (apply Z.ltb_ge; lia).
  assert (He : (now >? ed) = false) by (rewrite Z.gtb_ltb; apply Z.ltb_ge; lia).
  assert (Hs' : (now' <? sd) = false) by (apply Z.ltb_ge; lia).
  assert (He' : (now' >? ed) = false) by (rewrite Z.gtb_ltb; apply Z.ltb_ge; lia).
  destruct Hst as [-> | ->]; unfold preSave; simpl; rewrite ?Hs, ?He; simpl;
    rewrite ?Hs', ?He'; reflexivity.
Qed.

Lemma toggleStatus_twice_witness :
  (toggleStatus metaDefault owner "p1" 160
     (toggleStatus metaDefault owner "p1" 150 (world0 1)).2).2 = world0 1.
Proof.
  apply (toggleStatus_twice metaDefault owner "p1" 150 160 (world0 1) (colours 1)).
  - vm_compute. reflexivity.
  - reflexivity.
  - left. reflexivity.
  - simpl. lia.
  - simpl. lia.
Defined.

(** ** Deleting a poll *)

(** The poll-deletion handler.  An unknown poll (404), a caller who is
    neither administrator nor creator (403), and a creator without
    administrator role whose poll already has votes (400) change nothing.
    Otherwise the poll is removed, the ledger loses exactly the entries of
    that poll and keeps every other entry, no other poll is touched, and
    no user document is written - a voter's history still lists the
    deleted poll. *)
Theorem deletePoll_outcome (meta : ObjectId → PollMeta) (actor : Actor) (id : ObjectId)
        (w : World) :
  (polls w !! id = None → deletePoll meta actor id w = (refuse 404 "Poll not found", w))
  ∧ (∀ p, polls w !! id = Some p →
       actor_role actor ≠ admin → createdBy (meta id) ≠ actor_id actor →
       deletePoll meta actor id w = (refuse 403 "Access denied", w))
  ∧ (∀ p, polls w !! id = Some p →
       actor_role actor ≠ admin → createdBy (meta id) = actor_id actor →
       0 < totalVotes p →
       deletePoll meta actor id w = (refuse 400 "Cannot delete poll with existing votes", w))
  ∧ (reply_code (deletePoll meta actor id w).1 = 200 →
     polls (deletePoll meta actor id w).2 !! id = None
     ∧ (∀ pid, pid ≠ id → polls (deletePoll meta actor id w).2 !! pid = polls w !! pid)
     ∧ (∀ vid v, ledger (deletePoll meta actor id w).2 !! vid = Some v
                 ↔ ledger w !! vid = Some v ∧ vote_pollId v ≠ id)
     ∧ users (deletePoll meta actor id w).2 = users w).
Proof.
  unfold deletePoll, accessDenied.
  split; [| split; [| split]].
  - intros Hnone. by rewrite Hnone.
  - intros p Hp Hrole Hown. rewrite Hp.
    rewrite (bool_decide_eq_true_2 _ Hrole), (bool_decide_eq_true_2 _ Hown). done.
  - intros p Hp Hrole Hown Hvotes. rewrite Hp.
    rewrite (bool_decide_eq_true_2 _ Hrole), bool_decide_eq_false_2
      by (intros Hne; by apply Hne).
    simpl. by rewrite (proj2 (Z.gtb_gt _ _)) by lia.
  - destruct (polls w !! id) as [p |] eqn:Hp; simpl; [| discriminate].
    destruct (_ && _); simpl; [discriminate |].
    destruct (_ && _); simpl; [discriminate |].
    intros _.
    split; [apply lookup_delete_eq |].
    split; [intros pid Hne; by apply lookup_delete_ne |].
    split; [| done].
    intros vid v. rewrite map_lookup_filter_Some. simpl. tauto.
Qed.

Lemma deletePoll_outcome_witness :
  deletePoll metaDefault stranger "p1" world2 = (refuse 403 "Access denied", world2)
  ∧ deletePoll metaDefault owner "p1" world2
    = (refuse 400 "Cannot delete poll with existing votes", world2)
  ∧ polls (deletePoll metaDefault moderator "p1" world2).2 !! "p1" = None
  ∧ users (deletePoll metaDefault moderator "p1" world2).2 = users world2.
Proof.
  split; [| split].
  - apply (proj1 (proj2 (deletePoll_outcome metaDefault stranger "p1" world2))
             coloursAfter2); [vm_compute; reflexivity | discriminate | discriminate].
  - apply (proj1 (proj2 (proj2 (deletePoll_outcome metaDefault owner "p1" world2)))
             coloursAfter2);
      [vm_compute; reflexivity | discriminate | reflexivity | simpl; lia].
  - destruct (proj2 (proj2 (proj2 (deletePoll_outcome metaDefault moderator "p1" world2))))
      as (H1 & _ & _ & H2); [vm_compute; reflexivity |].
    split; assumption.
Defined.

(** After a poll has been deleted its votes can no longer be cast or
    retracted, and the votes of other polls still can be addressed: a cast
    on the deleted poll is answered 404, and so is the retraction of any
    entry the ledger held for it. *)
Theorem deletePoll_then_vote (meta : ObjectId → PollMeta) (actor : Actor) (id : ObjectId)
        (w : World) (req : CastReq) (del : DeleteReq) (v : Vote) :
  reply_code (deletePoll meta actor id w).1 = 200 →
  req_pollId req = id →
  del_role del = admin →
  ledger w !! del_voteId del = Some v → vote_pollId v = id →
  castVote req (deletePoll meta actor id w).2
  = (respond 404 "Poll not found", (deletePoll meta actor id w).2)
  ∧ deleteVote del (deletePoll meta actor id w).2
    = (respond 404 "Vote not found", (deletePoll meta actor id w).2).
Proof.
  intros Hcode Hreq Hrole Hv Hpid.
  unfold deletePoll in *.
  destruct (polls w !! id) as [p |] eqn:Hp; simpl in *; [| discriminate].
  destruct (accessDenied meta actor id); simpl in *; [discriminate |].
  destruct (_ && _); simpl in *; [discriminate |].
  split.
  - unfold castVote, cast_begin. simpl. by rewrite Hreq, lookup_delete_eq.
  - unfold deleteVote. rewrite Hrole. simpl.
    rewrite (proj2 (map_lookup_filter_None _ _ _)); [done |].
    right. intros x Hx. simpl. rewrite Hv in Hx. injection Hx as <-. tauto.
Qed.

Lemma deletePoll_then_vote_witness :
  castVote cast1 (deletePoll metaDefault moderator "p1" world2).2
  = (respond 404 "Poll not found", (deletePoll metaDefault moderator "p1" world2).2)
  ∧ deleteVote retract1 (deletePoll metaDefault moderator "p1" world2).2
    = (respond 404 "Vote not found", (deletePoll metaDefault moderator "p1" world2).2).
Proof.
  apply (deletePoll_then_vote metaDefault moderator "p1" world2 cast1 retract1 vote1).
  - vm_compute. reflexivity.
  - reflexivity.
  - reflexivity.
  - vm_compute. reflexivity.
  - reflexivity.
Defined.

(** ** Seeing the results *)

(** Who may see the results.  A voter whose cast has just been answered
    201 is shown the results of that poll whenever the poll shows results
    after voting, and they count the new vote; a visitor, or a user who is
    neither administrator nor in [votedUsers], is refused (403) as long as
    the poll has not ended and does not show results before its end. *)
Theorem viewResults_after_voting (meta : ObjectId → PollMeta) (req : CastReq) (w : World)
        (p : Poll) (r : Role) (now now' : Date) :
  polls w !! req_pollId req = Some p →
  code (castVote req w).1 = 201 →
  (showResultsAfterVoting (meta (req_pollId req)) = true →
   ∃ res, viewResults meta (Some (mkActor (req_userId req) r)) (req_pollId req) now now'
                      (castVote req w).2
          = mkReply 200 "" (Some res)
          ∧ res_totalVotes res = totalVotes p + 1)
  ∧ (∀ user,
       showResultsBeforeEnd (meta (req_pollId req)) = false →
       now <= endDate p →
       match user with
       | Some a => actor_role a ≠ admin ∧ actor_id a ≠ req_userId req
                   ∧ actor_id a ∉ votedUsers p
       | None => True
       end →
       viewResults meta user (req_pollId req) now now' (castVote req w).2
       = refuse 403 "Results not available yet").
Proof.
  intros Hp Hcode.
  destruct (castVote_cases req w)
    as [(_ & E) | [(q & _ & _ & E) | [(q & _ & _ & _ & E)
       | [(q & msg & _ & _ & E) | (q & p' & o & Hq & _ & Hadd & _ & E)]]]];
    simpl in E; rewrite E in Hcode |- *; simpl in *; try discriminate.
  rewrite Hp in Hq. injection Hq as <-.
  destruct (addVote_returned _ _ _ _ _ _ Hadd) as (_ & _ & _ & Htv & Hvu & _ & Hrest).
  assert (Hend : endDate (preSave (t_save req) p') = endDate p).
  { rewrite (preSave_as_set_status (t_save req) p'). simpl.
    apply (f_equal endDate) in Hrest. simpl in Hrest. done. }
  unfold viewResults. rewrite castWorld_polls, lookup_insert_eq.
  split.
  - intros Hshow. unfold canViewResults. simpl.
    rewrite preSave_votedUsers, Hvu, Hshow.
    assert (Hin : bool_decide
              (req_userId req
               ∈ (if bool_decide (req_userId req ∈ votedUsers p) then votedUsers p
                  else votedUsers p ++ [req_userId req])) = true).
    { apply bool_decide_eq_true. case_bool_decide; [done |].
      apply elem_of_app. right. apply list_elem_of_here. }
    rewrite Hin. rewrite !orb_true_r. simpl.
    eexists. split; [reflexivity |]. simpl.
    by rewrite preSave_totalVotes.
  - intros user Hbefore Hnow Huser. unfold canViewResults, hasEnded.
    rewrite Hend, Hbefore, preSave_votedUsers, Hvu.
    rewrite Z.gtb_ltb, (proj2 (Z.ltb_ge _ _)) by lia. simpl.
    destruct user as [a |]; [| done].
    destruct Huser as (Hrole & Hid & Hnotin).
    rewrite (bool_decide_eq_false_2 (actor_role a = admin)) by done.
    rewrite bool_decide_eq_false_2; [done |].
    case_bool_decide; [done |].
    rewrite elem_of_app, list_elem_of_singleton. tauto.
Qed.

Lemma viewResults_after_voting_witness :
  (∃ res, viewResults metaDefault (Some (mkActor "u1" voter)) "p1" 150 150
                      (castVote cast1 (world0 2)).2
          = mkReply 200 "" (Some res)
          ∧ res_totalVotes res = 1)
  ∧ viewResults metaDefault (Some stranger) "p1" 150 150 (castVote cast1 (world0 2)).2
    = refuse 403 "Results not available yet"
  ∧ viewResults metaDefault None "p1" 150 150 (castVote cast1 (world0 2)).2
    = refuse 403 "Results not available yet".
Proof.
  destruct (viewResults_after_voting metaDefault cast1 (world0 2) (colours 2) voter 150 150)
    as [H1 H2]; [vm_compute; reflexivity | vm_compute; reflexivity |].
  split; [apply H1; reflexivity |].
  split.
  - apply (H2 (Some stranger)); [reflexivity | simpl; lia |].
    simpl. repeat split; try discriminate. intros H. inversion H.
  - apply (H2 None); [reflexivity | simpl; lia | exact I].
Defined.

(** ** The account lock *)

Lemma failedLogins_unlocked (attempts : list Attempt) (n : Z) :
  n + Z.of_nat (length attempts) < 5 →
  failedLogins (mkLoginState n None) attempts
  = mkLoginState (n + Z.of_nat (length attempts)) None.
Proof.
  revert n. induction attempts as [| a rest IH]; intros n Hlt; simpl in *.
  - f_equal. lia.
  - unfold failedLogins in *. simpl. unfold incLoginAttempts at 2. simpl.
    destruct (n + 1 >=? 5) eqn:E; [apply Z.geb_le in E; lia |]. simpl.
    rewrite IH by lia. f_equal. lia.
Qed.

Lemma failedLogins_locked (l : Date) (attempts : list Attempt) (n : Z) :
  Forall (fun a => at_expiry a <= l ∧ at_locked a < l) attempts →
  failedLogins (mkLoginState n (Some l)) attempts
  = mkLoginState (n + Z.of_nat (length attempts)) (Some l).
Proof.
  intros H. revert n. induction H as [| a rest [Hexp Hlock] _ IH]; intros n; simpl.
  - f_equal. lia.
  - unfold failedLogins in *. simpl. unfold incLoginAttempts at 2, isLocked. simpl.
    rewrite (proj2 (Z.ltb_ge _ _)) by lia.
    rewrite (proj2 (Z.gtb_gt _ _)) by lia.
    rewrite andb_false_r. rewrite IH. f_equal. lia.
Qed.

Lemma failedLogins_app (s : LoginState) (xs ys : list Attempt) :
  failedLogins s (xs ++ ys) = failedLogins (failedLogins s xs) ys.
Proof. apply fold_left_app. Qed.

Lemma failedLogins_cons (s : LoginState) (x : Attempt) (xs : list Attempt) :
  failedLogins s (x :: xs) = failedLogins (incLoginAttempts s x) xs.
Proof. reflexivity. Qed.

(** Five failed logins lock an account, and fewer never do.  Starting
    from a new account, a run of fewer than five failures leaves it
    unlocked with the failures counted; the fifth failure locks it until
    two hours after that attempt; and failures arriving while the lock
    holds are counted but do not extend it. *)
Theorem failedLogins_lock (early : list Attempt) (fifth : Attempt) (late : list Attempt) :
  (length early < 5)%nat →
  failedLogins freshLogin early = mkLoginState (Z.of_nat (length early)) None
  ∧ (length early = 4%nat →
     Forall (fun a => at_expiry a <= at_lock fifth + 7200000
                      ∧ at_locked a < at_lock fifth + 7200000) late →
     failedLogins freshLogin (early ++ fifth :: late)
     = mkLoginState (5 + Z.of_nat (length late)) (Some (at_lock fifth + 7200000))
     ∧ ∀ t, isLocked (failedLogins freshLogin (early ++ fifth :: late)) t = true
            ↔ t < at_lock fifth + 7200000).
Proof.
  intros Hlen.
  assert (Hearly : failedLogins freshLogin early
                   = mkLoginState (Z.of_nat (length early)) None).
  { unfold freshLogin. rewrite failedLogins_unlocked by lia. f_equal. }
  split; [done |].
  intros H4 Hlate.
  assert (Hrun : failedLogins freshLogin (early ++ fifth :: late)
                 = mkLoginState (5 + Z.of_nat (length late))
                                (Some (at_lock fifth + 7200000))).
  { rewrite failedLogins_app, Hearly, failedLogins_cons, H4.
    assert (Hfifth : incLoginAttempts (mkLoginState (Z.of_nat 4) None) fifth
                     = mkLoginState 5 (Some (at_lock fifth + 7200000))).
    { unfold incLoginAttempts, isLocked. simpl. reflexivity. }
    rewrite Hfifth. by rewrite failedLogins_locked. }
  split; [done |].
  intros t. rewrite Hrun. unfold isLocked. simpl. rewrite Z.gtb_gt. lia.
Qed.

Lemma failedLogins_lock_witness :
  failedLogins freshLogin [failAt 10; failAt 20; failAt 30; failAt 40]
  = mkLoginState 4 None
  ∧ failedLogins freshLogin
      ([failAt 10; failAt 20; failAt 30; failAt 40] ++ failAt 50 :: [failAt 60; failAt 70])
    = mkLoginState 7 (Some 7200050).
Proof.
  destruct (failedLogins_lock [failAt 10; failAt 20; failAt 30; failAt 40] (failAt 50)
              [failAt 60; failAt 70]) as [H1 H2]; [simpl; lia |].
  split; [exact H1 |].
  apply H2; [reflexivity |].
  repeat constructor; simpl; lia.
Defined.

(** When a lock runs out.  A failed login after the lock has expired
    clears it and restarts the count at one.  At the very instant the lock
    ends the account is no longer locked but the lock is not expired
    either: a failure then counts on and, from the fifth on, starts a new
    two-hour lock.  [resetLoginAttempts] always gives a new account's
    state back. *)
Theorem failedLogin_after_lock (n : Z) (l : Date) (a : Attempt) :
  (l < at_expiry a →
   incLoginAttempts (mkLoginState n (Some l)) a = mkLoginState 1 None)
  ∧ (at_expiry a <= l → l <= at_locked a → 4 <= n →
     incLoginAttempts (mkLoginState n (Some l)) a
     = mkLoginState (n + 1) (Some (at_lock a + 7200000)))
  ∧ (isLocked (mkLoginState n (Some l)) l = false)
  ∧ resetLoginAttempts (mkLoginState n (Some l)) = freshLogin.
Proof.
  unfold incLoginAttempts, isLocked. simpl.
  split; [| split; [| split]].
  - intros Hlt. by rewrite (proj2 (Z.ltb_lt _ _)) by lia.
  - intros Hexp Hlock Hn.
    rewrite (proj2 (Z.ltb_ge _ _)) by lia.
    rewrite (proj2 (Z.geb_le _ _)) by lia.
    assert (Hgt : (l >? at_locked a) = false)
      by (rewrite Z.gtb_ltb; apply Z.ltb_ge; lia).
    rewrite Hgt. simpl. reflexivity.
  - rewrite Z.gtb_ltb. apply Z.ltb_ge. lia.
  - reflexivity.
Qed.

Lemma failedLogin_after_lock_witness :
  incLoginAttempts (mkLoginState 5 (Some 7200050)) (failAt 7200051) = mkLoginState 1 None
  ∧ incLoginAttempts (mkLoginState 5 (Some 7200050)) (failAt 7200050)
    = mkLoginState 6 (Some 14400050).
Proof.
  split.
  - apply (failedLogin_after_lock 5 7200050 (failAt 7200051)). simpl. lia.
  - apply (failedLogin_after_lock 5 7200050 (failAt 7200050)); simpl; lia.
Defined.

(** ** Looking at a poll *)

(** Looking at a poll writes it.  For a poll that may be shown, the
    handler stores the poll with the save-time transition applied and
    nothing else changed, so a poll stored as [active] whose end has
    passed is [completed] from the first look on, and the [canUserVote]
    reported to the caller is then the refusal "Poll is not active".  A
    private poll is refused to everyone who is not an administrator, its
    creator included, and nothing is written. *)
Theorem viewPoll_outcome (meta : ObjectId → PollMeta) (user : option Actor) (id : ObjectId)
        (now now' : Date) (w : World) (p : Poll) :
  polls w !! id = Some p →
  (isPublic (meta id) = false →
   match user with Some a => actor_role a ≠ admin | None => True end →
   viewPoll meta user id now now' w = (refuse 403 "Access denied to private poll", w))
  ∧ (isPublic (meta id) = true
     ∨ match user with Some a => actor_role a = admin | None => False end →
     (viewPoll meta user id now now' w).2
     = set_polls (<[id := preSave now p]> (polls w)) w
     ∧ (status p = active → endDate p < now → startDate p <= now →
        ∃ v, reply_body (viewPoll meta user id now now' w).1 = Some v
             ∧ status (view_poll v) = completed
             ∧ match user with
               | Some _ => view_canUserVote v = Some (deny "Poll is not active")
               | None => view_canUserVote v = None
               end)).
Proof.
  intros Hp. unfold viewPoll. rewrite Hp. split.
  - intros Hpriv Huser. rewrite Hpriv. simpl.
    destruct user as [a |]; [| done]. by rewrite bool_decide_eq_true_2.
  - intros Hmay.
    assert (Hgate : negb (isPublic (meta id))
                    && match user with
                       | Some a => bool_decide (actor_role a ≠ admin)
                       | None => true
                       end = false).
    { destruct Hmay as [-> | Hadmin]; [done |].
      destruct user as [a |]; [| done].
      rewrite bool_decide_eq_false_2 by (intros Hne; by apply Hne).
      apply andb_false_r. }
    rewrite Hgate. simpl. split; [done |].
    intros Hact Hend Hstart.
    assert (Hsaved : preSave now p = set_status completed p).
    { unfold preSave. rewrite bool_decide_eq_true_2 by done.
      rewrite (proj2 (Z.ltb_ge _ _)) by lia.
      by rewrite (proj2 (Z.gtb_gt _ _)) by lia. }
    eexists. split; [reflexivity |].
    destruct user as [a |]; simpl; rewrite Hsaved; split; try done.
Qed.

Lemma viewPoll_outcome_witness :
  viewPoll (fun _ => mkPollMeta "u9" false false true) (Some owner) "p1" 150 150 (world0 1)
  = (refuse 403 "Access denied to private poll", world0 1)
  ∧ (viewPoll metaDefault None "p1" 250 250 (world0 1)).2
    = set_polls (<[ "p1" := preSave 250 (colours 1) ]> (polls (world0 1))) (world0 1)
  ∧ ∃ v, reply_body (viewPoll metaDefault (Some stranger) "p1" 250 250 (world0 1)).1 = Some v
         ∧ status (view_poll v) = completed
         ∧ view_canUserVote v = Some (deny "Poll is not active").
Proof.
  split; [| split].
  - apply (proj1 (viewPoll_outcome (fun _ => mkPollMeta "u9" false false true) (Some owner)
                    "p1" 150 150 (world0 1) (colours 1) ltac:(vm_compute; reflexivity)));
      [reflexivity | simpl; discriminate].
  - apply (proj2 (viewPoll_outcome metaDefault None "p1" 250 250 (world0 1) (colours 1)
                    ltac:(vm_compute; reflexivity))). left. reflexivity.
  - destruct (proj2 (viewPoll_outcome metaDefault (Some stranger) "p1" 250 250 (world0 1)
                       (colours 1) ltac:(vm_compute; reflexivity)))
      as [_ H]; [left; reflexivity |].
    apply H; [reflexivity | simpl; lia | simpl; lia].
Defined.

(** ** Authentication *)

(** The two authentication middlewares agree on who the caller is: on a
    request whose token decodes, [optionalAuth] attaches a user exactly
    when [authenticateToken] lets the request through, and it is the same
    user; [optionalAuth] itself never answers a request.  A user let
    through by [authenticateToken] exists, is active and is not locked at
    that instant, and always passes [requireVoter]. *)
Theorem auth_middlewares_agree (tok : Token) (accounts : gmap ObjectId Account) (now : Date)
        (a : Actor) :
  (optionalAuth tok accounts now = Next (Some a)
   ↔ authenticateToken tok accounts now = Next (Some a))
  ∧ (∃ u, optionalAuth tok accounts now = Next u)
  ∧ (authenticateToken tok accounts now = Next (Some a) →
     ∃ acc, accounts !! actor_id a = Some acc
            ∧ acc_role acc = actor_role a
            ∧ acc_isActive acc = true
            ∧ isLocked (acc_login acc) now = false
            ∧ requireVoter a = Next (Some a)).
Proof.
  unfold optionalAuth, authenticateToken.
  destruct tok as [| | | | uid]; simpl.
  1-4: split; [split; discriminate | split; [eauto | discriminate]].
  destruct (accounts !! uid) as [acc |] eqn:Hacc; simpl.
  - destruct (acc_isActive acc) eqn:Hact; simpl;
      destruct (isLocked (acc_login acc) now) eqn:Hlock; simpl.
    + split; [split; discriminate | split; [eauto | discriminate]].
    + split; [done |]. split; [eauto |].
      intros [= <-]. simpl. exists acc. repeat split; try done.
      unfold requireVoter. simpl. by destruct (acc_role acc).
    + split; [split; discriminate | split; [eauto | discriminate]].
    + split; [split; discriminate | split; [eauto | discriminate]].
  - split; [split; discriminate | split; [eauto | discriminate]].
Qed.

(** An account locked by failed logins is shut out even with a valid
    token: after the fifth consecutive failure on a new, active account,
    [authenticateToken] answers 401 "Account is temporarily locked" at
    every instant before the lock ends (two hours after that failure), and
    lets the request through from that instant on. *)
Theorem locked_account_is_refused (early : list Attempt) (fifth : Attempt)
        (accounts : gmap ObjectId Account) (uid : ObjectId) (r : Role) (now : Date) :
  length early = 4%nat →
  accounts !! uid
  = Some (mkAccount r true (failedLogins freshLogin (early ++ [fifth]))) →
  (now < at_lock fifth + 7200000 →
   authenticateToken (Decoded uid) accounts now
   = Answered 401 "Account is temporarily locked")
  ∧ (at_lock fifth + 7200000 <= now →
     authenticateToken (Decoded uid) accounts now = Next (Some (mkActor uid r))).
Proof.
  intros H4 Hacc.
  assert (Hstate : failedLogins freshLogin (early ++ [fifth])
                   = mkLoginState 5 (Some (at_lock fifth + 7200000))).
  { rewrite failedLogins_app. unfold freshLogin.
    rewrite failedLogins_unlocked by lia. rewrite H4. reflexivity. }
  unfold authenticateToken. rewrite Hacc. simpl. rewrite Hstate.
  unfold isLocked. simpl. split; intros Hnow.
  - by rewrite (proj2 (Z.gtb_gt _ _)) by lia.
  - rewrite Z.gtb_ltb, (proj2 (Z.ltb_ge _ _)) by lia. done.
Qed.

Lemma locked_account_is_refused_witness :
  authenticateToken (Decoded "u1")
    {[ "u1" := mkAccount voter true
                 (failedLogins freshLogin
                    ([failAt 10; failAt 20; failAt 30; failAt 40] ++ [failAt 50])) ]}
    7200049
  = Answered 401 "Account is temporarily locked"
  ∧ authenticateToken (Decoded "u1")
      {[ "u1" := mkAccount voter true
                   (failedLogins freshLogin
                      ([failAt 10; failAt 20; failAt 30; failAt 40] ++ [failAt 50])) ]}
      7200050
    = Next (Some (mkActor "u1" voter)).
Proof.
  destruct (locked_account_is_refused [failAt 10; failAt 20; failAt 30; failAt 40]
              (failAt 50)
              {[ "u1" := mkAccount voter true
                           (failedLogins freshLogin
                              ([failAt 10; failAt 20; failAt 30; failAt 40]
                                 ++ [failAt 50])) ]}
              "u1" voter 7200049) as [H1 _];
    [reflexivity | apply lookup_singleton_eq |].
  destruct (locked_account_is_refused [failAt 10; failAt 20; failAt 30; failAt 40]
              (failAt 50)
              {[ "u1" := mkAccount voter true
                           (failedLogins freshLogin
                              ([failAt 10; failAt 20; failAt 30; failAt 40]
                                 ++ [failAt 50])) ]}
              "u1" voter 7200050) as [_ H2];
    [reflexivity | apply lookup_singleton_eq |].
  split; [apply H1; simpl; lia | apply H2; simpl; lia].
Defined.
